(** * AlgoTrade-Strategizer: dual moving-average crossover backtests

    A shallow embedding of [strategies/backtest_ma.py] (the simple variant)
    and [strategies/backtest_ma_portfolio.py] (the enhanced variant), and the
    properties of the specification that can be settled on it.

    Modelling conventions.
    - Numbers.  numpy's float64 is idealised as the exact rationals extended
      with [+inf], [-inf] and [NaN] (type [num]).  Arithmetic on finite values
      is exact (rounding is not modelled, nor is the sign of zero); the special
      values follow IEEE-754: comparisons with [NaN] are false, [x / 0] is an
      infinity or [NaN], [inf - inf] and [0 * inf] are [NaN].
    - Library numerics.  [np.sqrt] and [np.power] have no rational model and
      are parameters of the functions that call them.
    - pandas.  A Series is a list; a DataFrame is a record of the columns the
      two scripts create.  pandas 2.x semantics are assumed throughout (the
      scripts rely on chained [df[col].iloc[i] = v] assignments writing
      through to the frame): reductions skip [NaN], [rolling(window=w)] has
      [min_periods = w] and sees infinite entries as [NaN], [pct_change] pads
      missing values first.
    - Input.  Reading the file is not modelled: the batch functions start
      from the table [pd.read_csv] returns.  A name the reader found missing
      is [NaN] there; [==] matches it with no row and [unique()] lists it
      once.
    - In-place mutation.  A loop [for i in range(1, len(df))] that assigns
      [.iloc[i]] is a left fold over [seq 1 (len - 1)] whose state is the
      column being written; reads of [.iloc[i-1]] see earlier writes.
    - Exceptions.  Functions that can raise return a [result]. *)

From Stdlib Require Import QArith Qreduction ZArith Lia Lqa Bool.
From stdpp Require Import base list strings.

Set Default Proof Using "Type".

(** ** Extended rationals standing for float64 *)

Inductive num : Type :=
  | Fin (q : Q)
  | PInf
  | NInf
  | NaN.

Global Instance num_inhabited : Inhabited num := populate NaN.

Definition of_Z (z : Z) : num := Fin (inject_Z z).
Definition of_nat (n : nat) : num := of_Z (Z.of_nat n).

Definition isnan (x : num) : bool :=
  match x with NaN => true | _ => false end.
Definition notna (x : num) : bool := negb (isnan x).

Definition isfinite (x : num) : bool :=
  match x with Fin _ => true | _ => false end.

(** The infinity with the sign of a comparison against zero. *)
Definition inf_of (c : comparison) : num :=
  match c with Gt => PInf | Lt => NInf | Eq => NaN end.

Definition fadd (x y : num) : num :=
  match x, y with
  | NaN, _ | _, NaN => NaN
  | Fin a, Fin b => Fin (Qred (a + b))
  | PInf, NInf | NInf, PInf => NaN
  | PInf, _ | _, PInf => PInf
  | NInf, _ | _, NInf => NInf
  end.

Definition fsub (x y : num) : num :=
  match x, y with
  | NaN, _ | _, NaN => NaN
  | Fin a, Fin b => Fin (Qred (a - b))
  | PInf, PInf | NInf, NInf => NaN
  | PInf, _ | _, NInf => PInf
  | NInf, _ | _, PInf => NInf
  end.

Definition fmul (x y : num) : num :=
  match x, y with
  | NaN, _ | _, NaN => NaN
  | Fin a, Fin b => Fin (Qred (a * b))
  | Fin a, PInf | PInf, Fin a => inf_of (a ?= 0)%Q
  | Fin a, NInf | NInf, Fin a => inf_of (CompOpp (a ?= 0)%Q)
  | PInf, PInf | NInf, NInf => PInf
  | PInf, NInf | NInf, PInf => NInf
  end.

(** numpy's true division: no exception, [x / 0] is [inf_of (sign x)]. *)
Definition fdiv (x y : num) : num :=
  match x, y with
  | NaN, _ | _, NaN => NaN
  | Fin a, Fin b =>
      if Qeq_bool b 0 then inf_of (a ?= 0)%Q else Fin (Qred (a / b))
  | Fin _, (PInf | NInf) => Fin 0
  | PInf, Fin b => if Qle_bool 0 b then PInf else NInf
  | NInf, Fin b => if Qle_bool 0 b then NInf else PInf
  | (PInf | NInf), (PInf | NInf) => NaN
  end.

(** [x < y]; false as soon as one side is [NaN]. *)
Definition flt (x y : num) : bool :=
  match x, y with
  | NaN, _ | _, NaN => false
  | Fin a, Fin b => match (a ?= b)%Q with Lt => true | _ => false end
  | NInf, NInf | PInf, _ | _, NInf => false
  | NInf, _ | _, PInf => true
  end.

(** [x > y] is [y < x]. *)
Definition fgt (x y : num) : bool := flt y x.

(** [x <= y]; false as soon as one side is [NaN]. *)
Definition fle (x y : num) : bool :=
  match x, y with
  | NaN, _ | _, NaN => false
  | Fin a, Fin b => match (a ?= b)%Q with Gt => false | _ => true end
  | NInf, _ | _, PInf => true
  | PInf, _ | _, NInf => false
  end.

(** [x == y] on floats. *)
Definition feq (x y : num) : bool :=
  match x, y with
  | Fin a, Fin b => Qeq_bool a b
  | PInf, PInf | NInf, NInf => true
  | _, _ => false
  end.

Definition fmax (x y : num) : num := if flt x y then y else x.
Definition fmin (x y : num) : num := if flt y x then y else x.

(** ** Exceptions *)

Inductive exn : Type :=
  | IndexError
  | ZeroDivisionError.

Inductive result (A : Type) : Type :=
  | Ok (a : A)
  | Raise (e : exn).
Arguments Ok {A} a.
Arguments Raise {A} e.

Global Instance result_bind : MBind result := λ A B k r,
  match r with
  | Ok a => k a
  | Raise e => Raise e
  end.
Global Instance result_ret : MRet result := λ A a, Ok a.

(** ** pandas Series *)

Abbreviation Series := (list num) (only parsing).

(** [s.iloc[i]] for [i] within the index.  The loops below only read indices
    below [len(stock_data)]; a column of a pandas frame always has that many
    entries, so the default is never observed on a frame pandas can build. *)
Definition iloc (s : Series) (i : nat) : num := default NaN (s !! i).
Definition ziloc (s : list Z) (i : nat) : Z := default 0%Z (s !! i).

Definition dropna (s : Series) : Series := List.filter notna s.

(** Left-to-right sum and product; [Series.prod] skips [NaN]. *)
Definition fsum (s : Series) : num := foldl fadd (Fin 0) s.
Definition prod (s : Series) : num := foldl fmul (Fin 1) (dropna s).

Definition smean (obs : Series) : num := fdiv (fsum obs) (of_nat (length obs)).

(** [Series.min()] and [Series.max()]: [NaN] entries are skipped, and the
    result is [NaN] when nothing is left. *)
Definition smin (s : Series) : num :=
  match dropna s with
  | [] => NaN
  | x :: t => foldl fmin x t
  end.

Definition smax (s : Series) : num :=
  match dropna s with
  | [] => NaN
  | x :: t => foldl fmax x t
  end.

(** [Series.shift(1)]. *)
Definition shift1 (s : Series) : Series := take (length s) (NaN :: s).

(** [Series.ffill()]: a [NaN] takes the last value seen before it. *)
Fixpoint ffill_go (prev : num) (s : Series) : Series :=
  match s with
  | [] => []
  | x :: s' => let v := if isnan x then prev else x in v :: ffill_go v s'
  end.
Definition ffill (s : Series) : Series := ffill_go NaN s.

(** [Series.pct_change()] (pandas 2.x, [fill_method='pad']):
    [filled / filled.shift(1) - 1]. *)
Definition pct_change (s : Series) : Series :=
  let filled := ffill s in
  zip_with (λ cur prev, fsub (fdiv cur prev) (Fin 1)) filled (shift1 filled).

(** [Series.cummax()] and [Series.cumprod()]: a [NaN] entry stays [NaN] and
    does not touch the running value. *)
Fixpoint cum_go (op : num → num → num) (acc : option num) (s : Series) : Series :=
  match s with
  | [] => []
  | x :: s' =>
      if isnan x then NaN :: cum_go op acc s'
      else
        let a := match acc with None => x | Some y => op y x end in
        a :: cum_go op (Some a) s'
  end.
Definition cummax (s : Series) : Series := cum_go fmax None s.
Definition cumprod (s : Series) : Series := cum_go fmul None s.

(** [s.rolling(window=w)]: pandas first turns the infinite entries of [s]
    into [NaN]; the aggregate then sees the last [w] entries, and with the
    default [min_periods = w] the result is [NaN] unless the window holds [w]
    observations that are not [NaN]. *)
Definition inf_to_nan (x : num) : num := if isfinite x then x else NaN.

Definition lastn (w : nat) (s : Series) : Series := drop (length s - w) s.

Fixpoint rolling_go (w : nat) (agg : Series → num) (buf s : Series) : Series :=
  match s with
  | [] => []
  | x :: s' =>
      let buf' := lastn w (buf ++ [x]) in
      agg buf' :: rolling_go w agg buf' s'
  end.

Definition with_min_periods (w : nat) (f : Series → num) (buf : Series) : num :=
  let obs := dropna buf in
  if (length obs <? w)%nat then NaN else f obs.

Definition rolling (w : nat) (f : Series → num) (s : Series) : Series :=
  rolling_go w (with_min_periods w f) [] (map inf_to_nan s).

Definition rolling_mean (w : nat) (s : Series) : Series := rolling w smean s.

(** Sample variance ([ddof = 1]) of the observations. *)
Definition svar (obs : Series) : num :=
  let m := smean obs in
  fdiv (fsum (map (λ x, fmul (fsub x m) (fsub x m)) obs))
       (of_nat (length obs - 1)).

(** ** The DataFrame of one instrument

    One record holds the columns of both scripts; a column a script has not
    created yet is simply not read by it. *)

Record DataFrame : Type := mkDataFrame {
  close : Series;
  SMA_20 : Series;
  SMA_50 : Series;
  Signal : list Z;
  Position : list Z;
  Stock_Returns : Series;
  Strategy_Returns : Series;
  Cumulative_Stock_Returns : Series;
  Cumulative_Strategy_Returns : Series;
  Daily_Returns : Series;
  Volatility : Series;
  Position_Size : Series;
  Portfolio_Value : Series;
  Invested_Capital : Series;
  Portfolio_Returns : Series
}.

(** [len(stock_data)]: the number of bars. *)
Definition len (df : DataFrame) : nat := length (close df).

(** Column assignment [df[col] = v], one setter per column. *)
Definition set_SMA_20 (v : Series) (df : DataFrame) : DataFrame :=
  mkDataFrame (close df) v (SMA_50 df) (Signal df) (Position df)
    (Stock_Returns df) (Strategy_Returns df) (Cumulative_Stock_Returns df)
    (Cumulative_Strategy_Returns df) (Daily_Returns df) (Volatility df)
    (Position_Size df) (Portfolio_Value df) (Invested_Capital df)
    (Portfolio_Returns df).
Definition set_SMA_50 (v : Series) (df : DataFrame) : DataFrame :=
  mkDataFrame (close df) (SMA_20 df) v (Signal df) (Position df)
    (Stock_Returns df) (Strategy_Returns df) (Cumulative_Stock_Returns df)
    (Cumulative_Strategy_Returns df) (Daily_Returns df) (Volatility df)
    (Position_Size df) (Portfolio_Value df) (Invested_Capital df)
    (Portfolio_Returns df).
Definition set_Signal (v : list Z) (df : DataFrame) : DataFrame :=
  mkDataFrame (close df) (SMA_20 df) (SMA_50 df) v (Position df)
    (Stock_Returns df) (Strategy_Returns df) (Cumulative_Stock_Returns df)
    (Cumulative_Strategy_Returns df) (Daily_Returns df) (Volatility df)
    (Position_Size df) (Portfolio_Value df) (Invested_Capital df)
    (Portfolio_Returns df).
Definition set_Position (v : list Z) (df : DataFrame) : DataFrame :=
  mkDataFrame (close df) (SMA_20 df) (SMA_50 df) (Signal df) v
    (Stock_Returns df) (Strategy_Returns df) (Cumulative_Stock_Returns df)
    (Cumulative_Strategy_Returns df) (Daily_Returns df) (Volatility df)
    (Position_Size df) (Portfolio_Value df) (Invested_Capital df)
    (Portfolio_Returns df).
Definition set_Stock_Returns (v : Series) (df : DataFrame) : DataFrame :=
  mkDataFrame (close df) (SMA_20 df) (SMA_50 df) (Signal df) (Position df)
    v (Strategy_Returns df) (Cumulative_Stock_Returns df)
    (Cumulative_Strategy_Returns df) (Daily_Returns df) (Volatility df)
    (Position_Size df) (Portfolio_Value df) (Invested_Capital df)
    (Portfolio_Returns df).
Definition set_Strategy_Returns (v : Series) (df : DataFrame) : DataFrame :=
  mkDataFrame (close df) (SMA_20 df) (SMA_50 df) (Signal df) (Position df)
    (Stock_Returns df) v (Cumulative_Stock_Returns df)
    (Cumulative_Strategy_Returns df) (Daily_Returns df) (Volatility df)
    (Position_Size df) (Portfolio_Value df) (Invested_Capital df)
    (Portfolio_Returns df).
Definition set_Cumulative_Stock_Returns (v : Series) (df : DataFrame) : DataFrame :=
  mkDataFrame (close df) (SMA_20 df) (SMA_50 df) (Signal df) (Position df)
    (Stock_Returns df) (Strategy_Returns df) v
    (Cumulative_Strategy_Returns df) (Daily_Returns df) (Volatility df)
    (Position_Size df) (Portfolio_Value df) (Invested_Capital df)
    (Portfolio_Returns df).
Definition set_Cumulative_Strategy_Returns (v : Series) (df : DataFrame) : DataFrame :=
  mkDataFrame (close df) (SMA_20 df) (SMA_50 df) (Signal df) (Position df)
    (Stock_Returns df) (Strategy_Returns df) (Cumulative_Stock_Returns df)
    v (Daily_Returns df) (Volatility df)
    (Position_Size df) (Portfolio_Value df) (Invested_Capital df)
    (Portfolio_Returns df).
Definition set_Daily_Returns (v : Series) (df : DataFrame) : DataFrame :=
  mkDataFrame (close df) (SMA_20 df) (SMA_50 df) (Signal df) (Position df)
    (Stock_Returns df) (Strategy_Returns df) (Cumulative_Stock_Returns df)
    (Cumulative_Strategy_Returns df) v (Volatility df)
    (Position_Size df) (Portfolio_Value df) (Invested_Capital df)
    (Portfolio_Returns df).
Definition set_Volatility (v : Series) (df : DataFrame) : DataFrame :=
  mkDataFrame (close df) (SMA_20 df) (SMA_50 df) (Signal df) (Position df)
    (Stock_Returns df) (Strategy_Returns df) (Cumulative_Stock_Returns df)
    (Cumulative_Strategy_Returns df) (Daily_Returns df) v
    (Position_Size df) (Portfolio_Value df) (Invested_Capital df)
    (Portfolio_Returns df).
Definition set_Position_Size (v : Series) (df : DataFrame) : DataFrame :=
  mkDataFrame (close df) (SMA_20 df) (SMA_50 df) (Signal df) (Position df)
    (Stock_Returns df) (Strategy_Returns df) (Cumulative_Stock_Returns df)
    (Cumulative_Strategy_Returns df) (Daily_Returns df) (Volatility df)
    v (Portfolio_Value df) (Invested_Capital df)
    (Portfolio_Returns df).
Definition set_Portfolio_Value (v : Series) (df : DataFrame) : DataFrame :=
  mkDataFrame (close df) (SMA_20 df) (SMA_50 df) (Signal df) (Position df)
    (Stock_Returns df) (Strategy_Returns df) (Cumulative_Stock_Returns df)
    (Cumulative_Strategy_Returns df) (Daily_Returns df) (Volatility df)
    (Position_Size df) v (Invested_Capital df)
    (Portfolio_Returns df).
Definition set_Invested_Capital (v : Series) (df : DataFrame) : DataFrame :=
  mkDataFrame (close df) (SMA_20 df) (SMA_50 df) (Signal df) (Position df)
    (Stock_Returns df) (Strategy_Returns df) (Cumulative_Stock_Returns df)
    (Cumulative_Strategy_Returns df) (Daily_Returns df) (Volatility df)
    (Position_Size df) (Portfolio_Value df) v
    (Portfolio_Returns df).
Definition set_Portfolio_Returns (v : Series) (df : DataFrame) : DataFrame :=
  mkDataFrame (close df) (SMA_20 df) (SMA_50 df) (Signal df) (Position df)
    (Stock_Returns df) (Strategy_Returns df) (Cumulative_Stock_Returns df)
    (Cumulative_Strategy_Returns df) (Daily_Returns df) (Volatility df)
    (Position_Size df) (Portfolio_Value df) (Invested_Capital df)
    v.

(** A value of the [stock_name] column.  [pd.read_csv] reads an empty cell,
    or a marker such as [NA], as the missing value [NaN]: that is [None]. *)
Abbreviation Name := (option string) (only parsing).

(** [a == b] on two names: a missing name equals nothing, not even itself. *)
Definition name_eq (a b : Name) : bool :=
  match a, b with
  | Some x, Some y => String.eqb x y
  | _, _ => false
  end.

(** The input table: one row per bar and instrument, in time order. *)
Definition RawData : Type := list (Name * num).

(** ** Functions the two scripts share (their text is identical in both) *)

(** [data[data['stock_name'] == stock_name].copy()] *)
Definition load_and_prepare_data (data : RawData) (stock_name : Name) : DataFrame :=
  let rows := List.filter (λ r, name_eq (fst r) stock_name) data in
  mkDataFrame (map snd rows) [] [] [] [] [] [] [] [] [] [] [] [] [] [].

Definition calculate_moving_averages (stock_data : DataFrame) : DataFrame :=
  let stock_data := set_SMA_20 (rolling_mean 20 (close stock_data)) stock_data in
  let stock_data := set_SMA_50 (rolling_mean 50 (close stock_data)) stock_data in
  stock_data.

(** Body of the loop of [generate_signals] at index [i]. *)
Definition generate_signals_step (stock_data : DataFrame) (i : nat) : DataFrame :=
  if fgt (iloc (SMA_20 stock_data) i) (iloc (SMA_50 stock_data) i)
     && flt (iloc (SMA_20 stock_data) (i - 1)) (iloc (SMA_50 stock_data) (i - 1))
  then set_Signal (<[i := 1%Z]> (Signal stock_data)) stock_data
  else if flt (iloc (SMA_20 stock_data) i) (iloc (SMA_50 stock_data) i)
          && fgt (iloc (SMA_20 stock_data) (i - 1)) (iloc (SMA_50 stock_data) (i - 1))
  then set_Signal (<[i := (-1)%Z]> (Signal stock_data)) stock_data
  else stock_data.

Definition generate_signals (stock_data : DataFrame) : DataFrame :=
  let stock_data := set_Signal (replicate (len stock_data) 0%Z) stock_data in
  let stock_data := set_Position (replicate (len stock_data) 0%Z) stock_data in
  foldl generate_signals_step stock_data (seq 1 (len stock_data - 1)).

(** Python's [a / b] on two ints: a float, or [ZeroDivisionError]. *)
Definition py_truediv (a b : Z) : result num :=
  if (b =? 0)%Z then Raise ZeroDivisionError
  else Ok (Fin (Qred (inject_Z a / inject_Z b))).

(** [1 + s] and [s - 1.0], elementwise. *)
Definition one_plus (s : Series) : Series := map (fadd (Fin 1)) s.
Definition minus_one (s : Series) : Series := map (λ x, fsub x (Fin 1)) s.

(** The drawdown reduction both metric calculators end with:
    [rolling_max = V.cummax(); (V / rolling_max - 1.0).min()]. *)
Definition max_drawdown_of (V : Series) : num :=
  let rolling_max := cummax V in
  let daily_drawdown := minus_one (zip_with fdiv V rolling_max) in
  smin daily_drawdown.

(** [Series.unique()]: first occurrences, in order of appearance.  Its hash
    table keeps all missing names under one key, so [NaN] is listed once. *)
Definition same_key (a b : Name) : bool :=
  match a, b with
  | Some x, Some y => String.eqb x y
  | None, None => true
  | _, _ => false
  end.

Fixpoint unique_go (seen : list Name) (l : list Name) : list Name :=
  match l with
  | [] => []
  | x :: t =>
      if existsb (same_key x) seen then unique_go seen t
      else x :: unique_go (x :: seen) t
  end.
Definition unique (l : list Name) : list Name := unique_go [] l.

(** [Series.std()]: [NaN] entries skipped, [ddof = 1]. *)
Definition sstd (np_sqrt : num → num) (s : Series) : num :=
  let obs := dropna s in
  if (length obs <? 2)%nat then NaN else np_sqrt (svar obs).

(** [245 * 25]: bars per year, and the risk-free rate [0.06]. *)
Definition bars_per_year : Z := 245 * 25.
Definition risk_free_rate : num := Fin (6 # 100).

(** ** strategies/backtest_ma.py: the simple variant *)

Module backtest_ma.

Definition update_position_step (stock_data : DataFrame) (i : nat) : DataFrame :=
  if (ziloc (Signal stock_data) i =? 1)%Z
  then set_Position (<[i := 1%Z]> (Position stock_data)) stock_data
  else if (ziloc (Signal stock_data) i =? -1)%Z
  then set_Position (<[i := 0%Z]> (Position stock_data)) stock_data
  else set_Position
         (<[i := ziloc (Position stock_data) (i - 1)]> (Position stock_data))
         stock_data.

Definition update_position (stock_data : DataFrame) : DataFrame :=
  foldl update_position_step stock_data (seq 1 (len stock_data - 1)).

Definition calculate_returns (stock_data : DataFrame) : DataFrame :=
  let stock_data := set_Stock_Returns (pct_change (close stock_data)) stock_data in
  let stock_data :=
    set_Strategy_Returns
      (zip_with fmul (Stock_Returns stock_data)
                (shift1 (map of_Z (Position stock_data)))) stock_data in
  let stock_data :=
    set_Cumulative_Stock_Returns
      (cumprod (one_plus (Stock_Returns stock_data))) stock_data in
  let stock_data :=
    set_Cumulative_Strategy_Returns
      (cumprod (one_plus (Strategy_Returns stock_data))) stock_data in
  stock_data.

Record Metrics : Type := mkMetrics {
  Stock_Name : Name;
  Annualized_Strategy_Returns : num;
  Annualized_Stock_Returns : num;
  Strategy_Volatility : num;
  Stock_Volatility : num;
  Sharpe_Ratio : num;
  Maximum_Drawdown : num
}.

Section Numerics.
Context (np_sqrt : num → num) (np_power : num → num → num).

Definition calculate_performance_metrics
    (stock_name : Name) (stock_data : DataFrame) : result Metrics :=
  e ← py_truediv bars_per_year (Z.of_nat (len stock_data));
  let annualized_strategy_returns :=
    fsub (np_power (prod (one_plus (Strategy_Returns stock_data))) e) (Fin 1) in
  let annualized_stock_returns :=
    fsub (np_power (prod (one_plus (Stock_Returns stock_data))) e) (Fin 1) in
  let strategy_volatility :=
    fmul (sstd np_sqrt (Strategy_Returns stock_data)) (np_sqrt (of_Z bars_per_year)) in
  let stock_volatility :=
    fmul (sstd np_sqrt (Stock_Returns stock_data)) (np_sqrt (of_Z bars_per_year)) in
  let sharpe_ratio :=
    fdiv (fsub annualized_strategy_returns risk_free_rate) strategy_volatility in
  let max_drawdown := max_drawdown_of (Cumulative_Strategy_Returns stock_data) in
  mret (mkMetrics stock_name annualized_strategy_returns annualized_stock_returns
          strategy_volatility stock_volatility sharpe_ratio max_drawdown).

Definition run_strategy (data : RawData) (stock_name : Name) : result Metrics :=
  let stock_data := load_and_prepare_data data stock_name in
  let stock_data := calculate_moving_averages stock_data in
  let stock_data := generate_signals stock_data in
  let stock_data := update_position stock_data in
  let stock_data := calculate_returns stock_data in
  calculate_performance_metrics stock_name stock_data.

(** [run_all_stocks] from the table [allstock_data] that [pd.read_csv]
    returned: the first exception aborts the batch. *)
Definition run_all_stocks (allstock_data : RawData) : result (list Metrics) :=
  let allstock_names := unique (map fst allstock_data) in
  mapM (run_strategy allstock_data) allstock_names.
End Numerics.

End backtest_ma.

(** ** strategies/backtest_ma_portfolio.py: the enhanced variant *)

Module backtest_ma_portfolio.

Record Metrics : Type := mkMetrics {
  Stock_Name : Name;
  Annualized_Portfolio_Returns : num;
  Portfolio_Volatility : num;
  Sharpe_Ratio : num;
  Maximum_Drawdown : num;
  Final_Portfolio_Value : option num
}.

(** State of the loop of [simulate_trades]: the running [capital] and the
    frame whose columns are written in place.  The cost of a buy is computed
    as the code does, [(capital / close) * close]; in the exact arithmetic of
    [num] that product is [capital] itself for a finite capital and a finite
    non-zero close, while in float64 it can be off by a rounding error. *)
Definition simulate_trades_step (st : num * DataFrame) (i : nat) : num * DataFrame :=
  let capital := fst st in
  let stock_data := snd st in
  let st :=
    if (ziloc (Signal stock_data) i =? 1)%Z then
      let num_shares := fdiv capital (iloc (close stock_data) i) in
      let cost := fmul num_shares (iloc (close stock_data) i) in
      if fle cost capital then
        (fsub capital cost,
         set_Invested_Capital (<[i := cost]> (Invested_Capital stock_data)) stock_data)
      else (capital, stock_data)
    else if (ziloc (Signal stock_data) i =? -1)%Z then
      (fadd capital (iloc (Invested_Capital stock_data) (i - 1)),
       set_Invested_Capital (<[i := Fin 0]> (Invested_Capital stock_data)) stock_data)
    else (capital, stock_data) in
  let capital := fst st in
  let stock_data := snd st in
  let invested := iloc (Invested_Capital stock_data) i in
  (capital,
   set_Portfolio_Value
     (<[i := fadd capital (if notna invested then invested else Fin 0)]>
        (Portfolio_Value stock_data)) stock_data).

(** The frame and capital the loop starts from; [.iloc[0] = v] raises
    [IndexError] on a frame without rows. *)
Definition simulate_trades_init (stock_data : DataFrame) (initial_capital : num)
    : result (num * DataFrame) :=
  let stock_data := set_Portfolio_Value (replicate (len stock_data) NaN) stock_data in
  let stock_data := set_Invested_Capital (replicate (len stock_data) NaN) stock_data in
  if (len stock_data =? 0)%nat then Raise IndexError
  else
    let stock_data :=
      set_Portfolio_Value (<[0%nat := initial_capital]> (Portfolio_Value stock_data)) stock_data in
    let stock_data :=
      set_Invested_Capital (<[0%nat := Fin 0]> (Invested_Capital stock_data)) stock_data in
    Ok (initial_capital, stock_data).

(** State after the loop has run for bars [1 .. k]. *)
Definition simulate_trades_loop (st : num * DataFrame) (k : nat) : num * DataFrame :=
  foldl simulate_trades_step st (seq 1 k).

Definition simulate_trades (stock_data : DataFrame) (initial_capital : num)
    : result DataFrame :=
  st ← simulate_trades_init stock_data initial_capital;
  let st := simulate_trades_loop st (len stock_data - 1) in
  let stock_data := snd st in
  let stock_data := set_Invested_Capital (ffill (Invested_Capital stock_data)) stock_data in
  let stock_data := set_Portfolio_Returns (pct_change (Portfolio_Value stock_data)) stock_data in
  mret stock_data.

(** [s.iloc[-1]]. *)
Definition iloc_last (s : Series) : result num :=
  match last s with
  | Some x => Ok x
  | None => Raise IndexError
  end.

Section Numerics.
Context (np_sqrt : num → num) (np_power : num → num → num).

Definition calculate_performance_metrics
    (stock_name : Name) (stock_data : DataFrame) : result Metrics :=
  let portfolio_returns := dropna (Portfolio_Returns stock_data) in
  e ← py_truediv bars_per_year (Z.of_nat (length portfolio_returns));
  let annualized_portfolio_returns :=
    fsub (np_power (prod (one_plus portfolio_returns)) e) (Fin 1) in
  let portfolio_volatility :=
    fmul (sstd np_sqrt portfolio_returns) (np_sqrt (of_Z bars_per_year)) in
  let sharpe_ratio :=
    fdiv (fsub annualized_portfolio_returns risk_free_rate) portfolio_volatility in
  let max_drawdown := max_drawdown_of (Portfolio_Value stock_data) in
  mret (mkMetrics stock_name annualized_portfolio_returns portfolio_volatility
          sharpe_ratio max_drawdown None).

Definition calculate_volatility (stock_data : DataFrame) (window : nat) : DataFrame :=
  let stock_data := set_Daily_Returns (pct_change (close stock_data)) stock_data in
  let stock_data :=
    set_Volatility
      (map (λ x, fmul x (np_sqrt (of_Z bars_per_year)))
           (rolling window (sstd np_sqrt) (Daily_Returns stock_data))) stock_data in
  stock_data.

Definition adjust_position_size
    (stock_data : DataFrame) (initial_capital fixed_fraction : num)
    : result DataFrame :=
  let stock_data := calculate_volatility stock_data 20 in
  current_volatility ← iloc_last (Volatility stock_data);
  let normalized_volatility := fdiv (Fin 1) current_volatility in
  let normalized_volatility_scaled :=
    fdiv normalized_volatility (smax (Volatility stock_data)) in
  mret (set_Position_Size
          (replicate (len stock_data)
             (fmul (fmul initial_capital fixed_fraction) normalized_volatility_scaled))
          stock_data).

Definition update_performance_metrics_with_portfolio
    (stock_name : Name) (stock_data : DataFrame) : result Metrics :=
  metrics ← calculate_performance_metrics stock_name stock_data;
  final ← iloc_last (Portfolio_Value stock_data);
  mret (mkMetrics (Stock_Name metrics) (Annualized_Portfolio_Returns metrics)
          (Portfolio_Volatility metrics) (Sharpe_Ratio metrics)
          (Maximum_Drawdown metrics) (Some final)).

(** [fixed_fraction] is left at its default [0.1] by this caller. *)
Definition run_strategy_with_enhancements
    (data : RawData) (stock_name : Name) (initial_capital : num) : result Metrics :=
  let stock_data := load_and_prepare_data data stock_name in
  let stock_data := calculate_moving_averages stock_data in
  let stock_data := generate_signals stock_data in
  stock_data ← adjust_position_size stock_data initial_capital (Fin (1 # 10));
  stock_data ← simulate_trades stock_data initial_capital;
  update_performance_metrics_with_portfolio stock_name stock_data.

(** [run_all_stocks_with_enhancements], likewise from the table read. *)
Definition run_all_stocks_with_enhancements
    (allstock_data : RawData) (initial_capital : num) : result (list Metrics) :=
  let allstock_names := unique (map fst allstock_data) in
  mapM (λ curr_stock,
          run_strategy_with_enhancements allstock_data curr_stock initial_capital)
       allstock_names.
End Numerics.

End backtest_ma_portfolio.

(** ** Vocabulary of the statements *)

(** Upward and downward cross of the short average over the long one
    between bars [i-1] and [i]. *)
Definition cross_up (s l : Series) (i : nat) : bool :=
  fgt (iloc s i) (iloc l i) && flt (iloc s (i - 1)) (iloc l (i - 1)).
Definition cross_down (s l : Series) (i : nat) : bool :=
  flt (iloc s i) (iloc l i) && fgt (iloc s (i - 1)) (iloc l (i - 1)).

(** What one pass of the signal loop leaves at an index it visits. *)
Definition signal_rule (s l : Series) (i : nat) (old : Z) : Z :=
  if cross_up s l i then 1%Z else if cross_down s l i then (-1)%Z else old.

(** What the position loop writes at an index it visits. *)
Definition position_rule (sg : Z) (prev : Z) : Z :=
  if (sg =? 1)%Z then 1%Z else if (sg =? -1)%Z then 0%Z else prev.

(** The running cash of the enhanced simulation: the value of the local
    [capital] once the loop of [simulate_trades] has handled bars [1 .. i]. *)
Definition cash_trace (stock_data : DataFrame) (initial_capital : num)
    : result Series :=
  st ← backtest_ma_portfolio.simulate_trades_init stock_data initial_capital;
  mret (map (λ i, fst (backtest_ma_portfolio.simulate_trades_loop st i))
            (seq 0 (len stock_data))).

(** What the trade loop reads and writes: the two input columns and the two
    columns it assigns. *)
Definition trade_view (d : DataFrame) : Series * list Z * Series * Series :=
  (close d, Signal d, Portfolio_Value d, Invested_Capital d).

(** What a caller can observe of a finished simulation. *)
Definition trade_outcome (d : DataFrame) : Series * Series * Series :=
  (Portfolio_Value d, Invested_Capital d, Portfolio_Returns d).

Definition on_result {A B} (f : A → B) (r : result A) : result B :=
  match r with
  | Ok a => Ok (f a)
  | Raise e => Raise e
  end.

(** A frame holding only price and signal columns. *)
Definition frame_of (closes : Series) (signals : list Z) : DataFrame :=
  mkDataFrame closes [] [] signals [] [] [] [] [] [] [] [] [] [] [].

(** One pass of the trade loop, column by column: the cost of a buy at bar
    [i], the capital and the raw [Invested Capital] column the pass leaves. *)
Definition step_cost (c : num) (d : DataFrame) (i : nat) : num :=
  fmul (fdiv c (iloc (close d) i)) (iloc (close d) i).

Definition step_capital (c : num) (d : DataFrame) (i : nat) : num :=
  if (ziloc (Signal d) i =? 1)%Z then
    if fle (step_cost c d i) c then fsub c (step_cost c d i) else c
  else if (ziloc (Signal d) i =? -1)%Z then
    fadd c (iloc (Invested_Capital d) (i - 1))
  else c.

Definition step_invested (c : num) (d : DataFrame) (i : nat) : Series :=
  if (ziloc (Signal d) i =? 1)%Z then
    if fle (step_cost c d i) c
    then <[i := step_cost c d i]> (Invested_Capital d)
    else Invested_Capital d
  else if (ziloc (Signal d) i =? -1)%Z then
    <[i := Fin 0]> (Invested_Capital d)
  else Invested_Capital d.

Definition step_value (c : num) (d : DataFrame) (i : nat) : num :=
  let invested := iloc (step_invested c d i) i in
  fadd (step_capital c d i) (if notna invested then invested else Fin 0).

(** Two bars whose averages cross upwards. *)
Definition example_cross : DataFrame :=
  mkDataFrame [Fin 10; Fin 12] [Fin 1; Fin 3] [Fin 2; Fin 2]
    [] [] [] [] [] [] [] [] [] [] [] [].

(** A buy at bar 1 followed by a hold at bar 2, at an unchanged price. *)
Definition example_buy_hold : DataFrame :=
  frame_of [Fin 50; Fin 50; Fin 50] [0; 1; 0]%Z.

(** 53 closes: a decline from 100 to 51, then 1000, 2000, 2000.  The short
    average crosses above the long one at bar 50. *)
Definition example_closes : Series :=
  map (λ k, of_Z (100 - Z.of_nat k)) (seq 0 50) ++ [of_Z 1000; of_Z 2000; of_Z 2000].
Definition example_data : RawData := map (λ c, (Some "A"%string, c)) example_closes.

(** The continuity property at bar [i]: the recorded portfolio value is the
    cash plus the recorded invested capital. *)
Definition value_is_cash_plus_invested
    (d : DataFrame) (cash : Series) (i : nat) : bool :=
  feq (iloc (Portfolio_Value d) i)
      (fadd (iloc cash i) (iloc (Invested_Capital d) i)).

(** A buy at bar 1 on a frame whose [Position Size] column is 5000. *)
Definition example_sized_buy : DataFrame :=
  set_Position_Size [Fin 5000; Fin 5000] (frame_of [Fin 50; Fin 50] [0; 1]%Z).

(** Three bars at a constant price: too few for any rolling window. *)
Definition example_short_data : RawData :=
  [(Some "A"%string, Fin 10); (Some "A"%string, Fin 10); (Some "A"%string, Fin 10)].
Definition example_short : DataFrame :=
  generate_signals
    (calculate_moving_averages (load_and_prepare_data example_short_data (Some "A"%string))).

(** The most recent volatility is zero or undefined. *)
Definition degenerate_volatility (d : DataFrame) : Prop :=
  ∃ v, last (Volatility d) = Some v ∧ (isnan v = true ∨ feq v (Fin 0) = true).

(** A series never decreases from one entry to the next. *)
Fixpoint non_decreasing (s : Series) : bool :=
  match s with
  | x :: (y :: _) as t => fle x y && non_decreasing t
  | _ => true
  end.

(** The defined values of [V] are finite and the first of them is positive. *)
Definition starts_positive (V : Series) : bool :=
  match dropna V with
  | Fin q :: rest => flt (Fin 0) (Fin q) && forallb isfinite rest
  | _ => false
  end.

(** Twenty bars of one instrument at a constant price, and a table in which
    instrument A has a single bar. *)
Definition example_20_data : RawData := replicate 20 (Some "A"%string, Fin 10).
Definition example_batch_data : RawData :=
  [(Some "A"%string, Fin 10); (Some "B"%string, Fin 10); (Some "B"%string, Fin 10);
   (Some "B"%string, Fin 10)].

(** The frame the sizer returns for [example_short] when [np.sqrt] is
    replaced by the identity (its volatility column is [NaN] throughout, so
    the choice does not matter). *)
Definition example_short_sized : DataFrame :=
  Eval vm_compute in
    match backtest_ma_portfolio.adjust_position_size
            (λ x, x) example_short (Fin 100000) (Fin (1 # 10)) with
    | Ok d => d
    | Raise _ => example_short
    end.

(** The frame [simulate_trades] returns for [example_buy_hold]. *)
Definition example_buy_hold_result : DataFrame :=
  Eval vm_compute in
    match backtest_ma_portfolio.simulate_trades example_buy_hold (Fin 100000) with
    | Ok d => d
    | Raise _ => example_buy_hold
    end.

(** A value series with an undefined first entry and one drawdown. *)
Definition example_values : Series := [NaN; Fin 1; Fin (1 # 2); Fin 2].

(** The frame of [example_data] after the moving averages. *)
Definition example_frame : DataFrame :=
  calculate_moving_averages (load_and_prepare_data example_data (Some "A"%string)).

(** The last trade signal among bars [1 .. i] is a buy: some bar [j] carries
    [+1] and no later bar up to [i] carries [-1]. *)
Definition last_trade_is_buy (sig : list Z) (i : nat) : Prop :=
  ∃ j, 1 ≤ j ≤ i ∧ ziloc sig j = 1%Z ∧ ∀ k, j < k ≤ i → ziloc sig k ≠ (-1)%Z.

(** The frame of the simple variant after signals and positions. *)
Definition example_positions : DataFrame :=
  backtest_ma.update_position (generate_signals example_frame).

(** Sixty bars of one instrument at the constant price 10. *)
Definition example_flat_data : RawData := replicate 60 (Some "A"%string, Fin 10).

(** A table with three instruments of three bars each, interleaved. *)
Definition example_three_stocks : RawData :=
  [(Some "B"%string, Fin 20); (Some "A"%string, Fin 10); (Some "B"%string, Fin 21);
   (Some "C"%string, Fin 5); (Some "A"%string, Fin 11); (Some "C"%string, Fin 6);
   (Some "A"%string, Fin 12); (Some "B"%string, Fin 22); (Some "C"%string, Fin 7)].

(** A table in which two rows have no name. *)
Definition example_missing_name : RawData :=
  [(Some "A"%string, Fin 10); (None, Fin 10); (Some "A"%string, Fin 11);
   (None, Fin 12)].

(** The frame of [example_data] as loaded. *)
Definition example_raw : DataFrame := load_and_prepare_data example_data (Some "A"%string).

(** The running cash of the simulation of [example_buy_hold]. *)
Definition example_buy_hold_cash : Series :=
  Eval vm_compute in
    match cash_trace example_buy_hold (Fin 100000) with
    | Ok c => c
    | Raise _ => []
    end.

(** A buy signal at bar 1, whose close is 0, with its simulation. *)
Definition example_buy_unpriced : DataFrame :=
  frame_of [Fin 50; Fin 0; Fin 50] [0; 1; 0]%Z.
Definition example_buy_unpriced_result : DataFrame :=
  Eval vm_compute in
    match backtest_ma_portfolio.simulate_trades example_buy_unpriced (Fin 100000) with
    | Ok d => d
    | Raise _ => example_buy_unpriced
    end.
Definition example_buy_unpriced_cash : Series :=
  Eval vm_compute in
    match cash_trace example_buy_unpriced (Fin 100000) with
    | Ok c => c
    | Raise _ => []
    end.

(** A buy at bar 1, a hold at bar 2 and a sell at bar 3, with its
    simulation. *)
Definition example_buy_hold_sell : DataFrame :=
  frame_of [Fin 50; Fin 50; Fin 50; Fin 50] [0; 1; 0; -1]%Z.
Definition example_buy_hold_sell_result : DataFrame :=
  Eval vm_compute in
    match backtest_ma_portfolio.simulate_trades example_buy_hold_sell (Fin 100000) with
    | Ok d => d
    | Raise _ => example_buy_hold_sell
    end.
Definition example_buy_hold_sell_cash : Series :=
  Eval vm_compute in
    match cash_trace example_buy_hold_sell (Fin 100000) with
    | Ok c => c
    | Raise _ => []
    end.


(** * Properties *)

(** ** Order facts on [num] *)

Lemma flt_irrefl x : flt x x = false.
Proof.
  destruct x as [q| | |]; simpl; try done.
  destruct (Qcompare_spec q q) as [_|H|H]; try done.
  exfalso; revert H; apply Qlt_irrefl.
Qed.

Lemma flt_asym x y : flt x y = true → flt y x = false.
Proof.
  destruct x as [a| | |], y as [b| | |]; simpl; try done.
  destruct (Qcompare_spec a b) as [?|H|?]; try done. intros _.
  destruct (Qcompare_spec b a) as [?|H'|?]; try done.
  exfalso. apply (Qlt_irrefl a). by apply Qlt_trans with b.
Qed.

Lemma feq_not_flt x y : feq x y = true → flt x y = false ∧ flt y x = false.
Proof.
  destruct x as [a| | |], y as [b| | |]; simpl; try done.
  intros H%Qeq_bool_iff.
  rewrite (proj1 (Qeq_alt a b) H).
  symmetry in H. by rewrite (proj1 (Qeq_alt b a) H).
Qed.

Lemma flt_nan_l x y : isnan x = true → flt x y = false.
Proof. by destruct x. Qed.
Lemma flt_nan_r x y : isnan y = true → flt x y = false.
Proof. by destruct x, y. Qed.

(** ** The signal generator *)

Lemma generate_signals_step_frame df i :
  let df' := generate_signals_step df i in
  close df' = close df ∧ SMA_20 df' = SMA_20 df ∧ SMA_50 df' = SMA_50 df
  ∧ Position df' = Position df.
Proof.
  unfold generate_signals_step.
  repeat match goal with |- context [if ?b then _ else _] => destruct b end; done.
Qed.

Lemma generate_signals_step_lookup df i j :
  Signal (generate_signals_step df i) !! j =
    if decide (i = j) then signal_rule (SMA_20 df) (SMA_50 df) i <$> Signal df !! j
    else Signal df !! j.
Proof.
  unfold generate_signals_step, signal_rule, cross_up, cross_down.
  destruct (fgt _ _ && flt _ _); [|destruct (flt _ _ && fgt _ _)]; simpl;
    rewrite ?list_lookup_insert; repeat case_decide; subst;
      try done; try (destruct (Signal df !! j) eqn:E; simpl; try done).
  all: try (apply lookup_lt_Some in E); try (apply lookup_ge_None_1 in E);
    exfalso; lia.
Qed.

Lemma generate_signals_fold k : ∀ a df j,
  let df' := foldl generate_signals_step df (seq a k) in
  (close df' = close df ∧ SMA_20 df' = SMA_20 df ∧ SMA_50 df' = SMA_50 df
   ∧ Position df' = Position df)
  ∧ Signal df' !! j =
      if decide (a ≤ j < a + k)
      then signal_rule (SMA_20 df) (SMA_50 df) j <$> Signal df !! j
      else Signal df !! j.
Proof.
  induction k as [|k IH]; intros a df j; simpl.
  - split; [done|]. case_decide; [lia|done].
  - destruct (IH (S a) (generate_signals_step df a) j) as [(Hc & H20 & H50 & Hp) Hs].
    destruct (generate_signals_step_frame df a) as (Hc' & H20' & H50' & Hp').
    split; [by rewrite Hc, H20, H50, Hp|].
    rewrite Hs, H20', H50', generate_signals_step_lookup.
    repeat case_decide; subst; try lia; done.
Qed.

Lemma generate_signals_lookup df i :
  Signal (generate_signals df) !! i =
    if decide (1 ≤ i < len df)
    then Some (signal_rule (SMA_20 df) (SMA_50 df) i 0%Z)
    else if decide (i = 0 ∧ 0 < len df) then Some 0%Z else None.
Proof.
  unfold generate_signals.
  set (df0 := set_Position _ _).
  destruct (generate_signals_fold (len df0 - 1) 1 df0 i) as [_ ->].
  change (len df0) with (len df). change (SMA_20 df0) with (SMA_20 df).
  change (SMA_50 df0) with (SMA_50 df).
  change (Signal df0) with (replicate (len df) 0%Z).
  repeat case_decide; try lia.
  - by rewrite lookup_replicate_2 by lia.
  - by rewrite lookup_replicate_2 by lia.
  - apply lookup_replicate_None. lia.
Qed.

Lemma generate_signals_length df : length (Signal (generate_signals df)) = len df.
Proof.
  apply Nat.le_antisymm.
  - apply Nat.nlt_ge. intros Hlt.
    apply lookup_lt_is_Some_2 in Hlt. rewrite generate_signals_lookup in Hlt.
    repeat case_decide; try lia. by destruct Hlt.
  - destruct (len df) as [|n] eqn:E; [lia|].
    apply lookup_lt_is_Some_1. rewrite generate_signals_lookup, E.
    repeat case_decide; try lia; eauto.
Qed.

Lemma generate_signals_frame df :
  let df' := generate_signals df in
  close df' = close df ∧ SMA_20 df' = SMA_20 df ∧ SMA_50 df' = SMA_50 df
  ∧ Position df' = replicate (len df) 0%Z.
Proof.
  unfold generate_signals.
  set (df0 := set_Position _ _).
  by destruct (generate_signals_fold (len df0 - 1) 1 df0 0) as [(Hc & H20 & H50 & Hp) _].
Qed.

(** C1.  Bar 0 never carries a signal.  At every later bar [i] the signal is
    [+1] exactly on an upward cross ([SMA_20[i] > SMA_50[i]] and
    [SMA_20[i-1] < SMA_50[i-1]]), [-1] exactly on a downward cross, and [0]
    exactly when neither holds; in particular it is [0] when the two averages
    are equal at [i] or at [i-1], and when an average is undefined there. *)
Theorem C1_crossover_signal (df : DataFrame) (i : nat) :
  i < len df →
  let s := iloc (SMA_20 df) in
  let l := iloc (SMA_50 df) in
  let sg := Signal (generate_signals df) !! i in
  (i = 0 → sg = Some 0%Z)
  ∧ (1 ≤ i →
     (sg = Some 1%Z ↔ fgt (s i) (l i) = true ∧ flt (s (i - 1)) (l (i - 1)) = true)
     ∧ (sg = Some (-1)%Z ↔ flt (s i) (l i) = true ∧ fgt (s (i - 1)) (l (i - 1)) = true)
     ∧ (sg = Some 0%Z ↔
          ¬ (fgt (s i) (l i) = true ∧ flt (s (i - 1)) (l (i - 1)) = true)
          ∧ ¬ (flt (s i) (l i) = true ∧ fgt (s (i - 1)) (l (i - 1)) = true))
     ∧ (feq (s i) (l i) = true ∨ feq (s (i - 1)) (l (i - 1)) = true → sg = Some 0%Z)
     ∧ (isnan (s i) = true ∨ isnan (l i) = true
        ∨ isnan (s (i - 1)) = true ∨ isnan (l (i - 1)) = true → sg = Some 0%Z)).
Proof.
  intros Hi s l sg. subst sg. rewrite generate_signals_lookup.
  split.
  { intros ->. repeat case_decide; try lia; done. }
  intros H1. rewrite decide_True by lia.
  unfold signal_rule, cross_up, cross_down, fgt.
  fold (s i) (l i) (s (i - 1)) (l (i - 1)).
  pose proof (flt_asym (l i) (s i)) as Hac.
  pose proof (flt_asym (s (i - 1)) (l (i - 1))) as Hbd.
  pose proof (feq_not_flt (s i) (l i)) as He.
  pose proof (feq_not_flt (s (i - 1)) (l (i - 1))) as He'.
  pose proof (flt_nan_l (s i) (l i)) as Hn1.
  pose proof (flt_nan_r (l i) (s i)) as Hn2.
  pose proof (flt_nan_l (l i) (s i)) as Hn3.
  pose proof (flt_nan_r (s i) (l i)) as Hn4.
  pose proof (flt_nan_l (s (i - 1)) (l (i - 1))) as Hn5.
  pose proof (flt_nan_r (l (i - 1)) (s (i - 1))) as Hn6.
  pose proof (flt_nan_l (l (i - 1)) (s (i - 1))) as Hn7.
  pose proof (flt_nan_r (s (i - 1)) (l (i - 1))) as Hn8.
  destruct (flt (l i) (s i)), (flt (s (i - 1)) (l (i - 1))),
    (flt (s i) (l i)), (flt (l (i - 1)) (s (i - 1))); simpl;
    repeat split; intros; try done; intuition congruence.
Qed.

(** ** The position tracker of the simple variant *)

Import backtest_ma.

Lemma update_position_step_frame df i :
  let df' := update_position_step df i in
  close df' = close df ∧ Signal df' = Signal df
  ∧ length (Position df') = length (Position df).
Proof.
  unfold update_position_step.
  repeat match goal with |- context [if ?b then _ else _] => destruct b end;
    simpl; by rewrite length_insert.
Qed.

Lemma update_position_step_lookup df i j :
  Position (update_position_step df i) !! j =
    if decide (i = j ∧ i < length (Position df))
    then Some (position_rule (ziloc (Signal df) i) (ziloc (Position df) (i - 1)))
    else Position df !! j.
Proof.
  unfold update_position_step, position_rule.
  repeat match goal with |- context [if (?b =? ?c)%Z then _ else _] =>
    destruct (b =? c)%Z end; simpl; by rewrite list_lookup_insert.
Qed.

Lemma update_position_fold k : ∀ a df,
  1 ≤ a →
  let df' := foldl update_position_step df (seq a k) in
  close df' = close df ∧ Signal df' = Signal df
  ∧ length (Position df') = length (Position df)
  ∧ (∀ j, j < a → Position df' !! j = Position df !! j)
  ∧ (∀ j, a ≤ j < a + k → j < length (Position df) →
       Position df' !! j =
         Some (position_rule (ziloc (Signal df) j) (ziloc (Position df') (j - 1)))).
Proof.
  induction k as [|k IH]; intros a df Ha; simpl.
  - repeat split; try done. intros; lia.
  - destruct (IH (S a) (update_position_step df a)) as (Hc & Hs & Hl & Hlt & Hin); [lia|].
    destruct (update_position_step_frame df a) as (Hc' & Hs' & Hl').
    repeat split.
    + by rewrite Hc.
    + by rewrite Hs.
    + by rewrite Hl.
    + intros j Hj. rewrite Hlt by lia. rewrite update_position_step_lookup.
      case_decide; [lia|done].
    + intros j Hj Hjl. destruct (decide (j = a)) as [->|Hne].
      * rewrite Hlt by lia. rewrite update_position_step_lookup.
        rewrite decide_True by done. do 2 f_equal.
        unfold ziloc. rewrite Hlt by lia. rewrite update_position_step_lookup.
        case_decide; [lia|done].
      * rewrite Hin by lia. by rewrite Hs'.
Qed.

Lemma update_position_generate_signals df :
  let df' := update_position (generate_signals df) in
  close df' = close df ∧ Signal df' = Signal (generate_signals df)
  ∧ length (Position df') = len df
  ∧ (0 < len df → Position df' !! 0 = Some 0%Z)
  ∧ (∀ j, 1 ≤ j < len df →
       Position df' !! j =
         Some (position_rule (ziloc (Signal df') j) (ziloc (Position df') (j - 1)))).
Proof.
  unfold update_position.
  destruct (generate_signals_frame df) as (Hc & _ & _ & Hp).
  assert (Hlen : len (generate_signals df) = len df) by (unfold len; by rewrite Hc).
  destruct (update_position_fold (len (generate_signals df) - 1) 1 (generate_signals df))
    as (Hc' & Hs' & Hl' & Hlt & Hin); [lia|].
  rewrite Hp, length_replicate in Hl'.
  repeat split; try done.
  - by rewrite Hc'.
  - intros H0. rewrite Hlt by lia. rewrite Hp. by apply lookup_replicate_2.
  - intros j Hj. rewrite Hs'. apply Hin; [lia|].
    rewrite Hp, length_replicate. lia.
Qed.

(** C5.  In the simple variant [update_position] receives the frame of
    [generate_signals] and leaves its signals as they are.  The position
    column it returns starts flat, and at every later bar it is [1] where the
    generated signal is a buy, [0] where it is a sell and the previous bar's
    position where it is 0; so it differs from its predecessor only where the
    generated signal is non-zero. *)
Theorem C5_position_tracking (df : DataFrame) (i : nat) :
  1 ≤ i < len df →
  let generated := generate_signals df in
  let df' := update_position generated in
  let sig := ziloc (Signal generated) in
  let pos := ziloc (Position df') in
  Signal df' = Signal generated
  ∧ Position df' !! 0 = Some 0%Z
  ∧ is_Some (Position df' !! i)
  ∧ (sig i = 1%Z → pos i = 1%Z)
  ∧ (sig i = (-1)%Z → pos i = 0%Z)
  ∧ (sig i = 0%Z → pos i = pos (i - 1))
  ∧ (pos i ≠ pos (i - 1) → sig i ≠ 0%Z).
Proof.
  intros Hi generated df' sig pos.
  destruct (update_position_generate_signals df) as (_ & Hsig & _ & H0 & Hin).
  fold generated df' in Hsig, H0, Hin. specialize (Hin i Hi).
  rewrite Hsig in Hin. fold (sig i) in Hin.
  assert (Hpos : pos i = position_rule (sig i) (pos (i - 1))).
  { unfold pos at 1, ziloc. by rewrite Hin. }
  split; [done|]. split; [apply H0; lia|]. split; [by rewrite Hin|].
  unfold position_rule in Hpos.
  repeat split.
  - intros E. by rewrite Hpos, E.
  - intros E. by rewrite Hpos, E.
  - intros E. by rewrite Hpos, E.
  - intros Hne E. apply Hne. by rewrite Hpos, E.
Qed.

(** ** The moving-average calculator *)

Lemma lastn_app_lastn w (a b : Series) : lastn w (lastn w a ++ b) = lastn w (a ++ b).
Proof.
  unfold lastn. rewrite !length_app, length_drop.
  destruct (decide (length a ≤ w)) as [Hle|Hgt].
  - replace (length a - w) with 0 by lia. simpl. f_equal. lia.
  - replace (length a + length b - w) with ((length a - w) + length b) by lia.
    rewrite <- drop_drop. rewrite (drop_app_le a b) by lia.
    f_equal. lia.
Qed.

Lemma rolling_go_lookup w agg (s : Series) : ∀ buf i,
  i < length s →
  rolling_go w agg buf s !! i = Some (agg (lastn w (buf ++ take (S i) s))).
Proof.
  induction s as [|x s IH]; intros buf i Hi; simpl in *; [lia|].
  destruct i as [|i]; simpl.
  - by rewrite take_0.
  - rewrite IH by lia. rewrite lastn_app_lastn.
    by rewrite <- app_assoc.
Qed.

Lemma rolling_go_length w agg (s : Series) : ∀ buf,
  length (rolling_go w agg buf s) = length s.
Proof. induction s as [|x s IH]; intros buf; simpl; [done|]. by rewrite IH. Qed.

Lemma rolling_length w f s : length (rolling w f s) = length s.
Proof. unfold rolling. by rewrite rolling_go_length, length_map. Qed.

Lemma dropna_length_le (s : Series) : length (dropna s) ≤ length s.
Proof.
  induction s as [|x s IH]; simpl; [done|]. destruct (notna x); simpl; lia.
Qed.

Lemma dropna_all (s : Series) : forallb notna s = true → dropna s = s.
Proof.
  induction s as [|x s IH]; simpl; [done|].
  destruct (notna x); simpl; [|done]. intros H. by rewrite IH.
Qed.

Lemma dropna_some_nan (s : Series) :
  forallb notna s = false → length (dropna s) < length s.
Proof.
  induction s as [|x s IH]; simpl; [done|].
  destruct (notna x); simpl.
  - intros H. specialize (IH H). lia.
  - intros _. pose proof (dropna_length_le s). lia.
Qed.

Lemma inf_to_nan_finite (s : Series) :
  forallb isfinite s = true → map inf_to_nan s = s.
Proof.
  induction s as [|x s IH]; simpl; [done|].
  destruct x; simpl; try done. intros H. by rewrite IH.
Qed.

Lemma notna_inf_to_nan (s : Series) :
  forallb notna (map inf_to_nan s) = forallb isfinite s.
Proof.
  induction s as [|x s IH]; simpl; [done|]. rewrite IH. by destruct x.
Qed.

(** The window of [W] entries of [s] that ends at index [i]: its mean when
    all of them are finite, [NaN] when one is missing or infinite. *)
Lemma rolling_mean_lookup W (s : Series) i :
  0 < W → i < length s →
  rolling_mean W s !! i =
    Some (if decide (i < W - 1) then NaN
          else if forallb isfinite (take W (drop (i + 1 - W) s))
          then fdiv (fsum (take W (drop (i + 1 - W) s))) (of_nat W)
          else NaN).
Proof.
  intros HW Hi. unfold rolling_mean, rolling.
  rewrite rolling_go_lookup by (by rewrite length_map).
  simpl. f_equal. unfold with_min_periods, lastn.
  rewrite firstn_map, length_map, length_take_le by lia.
  case_decide as Hlt.
  - replace (S i - W) with 0 by lia. rewrite drop_0.
    pose proof (dropna_length_le (map inf_to_nan (take (S i) s))) as Hd.
    rewrite length_map, length_take_le in Hd by lia.
    destruct (Nat.ltb_spec (length (dropna (map inf_to_nan (take (S i) s)))) W);
      [done|lia].
  - replace (i + 1 - W) with (S i - W) by lia.
    rewrite take_drop_commute. replace (S i - W + W) with (S i) by lia.
    rewrite skipn_map.
    set (win := drop (S i - W) (take (S i) s)).
    assert (Hwin : length win = W).
    { unfold win. rewrite length_drop, length_take_le by lia. lia. }
    pose proof (notna_inf_to_nan win) as Hna.
    destruct (forallb isfinite win) eqn:E.
    + rewrite inf_to_nan_finite in * by done.
      rewrite dropna_all by done. rewrite Hwin, Nat.ltb_irrefl.
      unfold smean. by rewrite Hwin.
    + pose proof (dropna_some_nan _ Hna) as Hd. rewrite length_map, Hwin in Hd.
      by destruct (Nat.ltb_spec (length (dropna (map inf_to_nan win))) W); [|lia].
Qed.


(** ** The portfolio simulator of the enhanced variant *)

Import backtest_ma_portfolio.

Lemma simulate_trades_step_eq c d i :
  simulate_trades_step (c, d) i =
    (step_capital c d i,
     set_Portfolio_Value (<[i := step_value c d i]> (Portfolio_Value d))
       (set_Invested_Capital (step_invested c d i) d)).
Proof.
  destruct d.
  unfold simulate_trades_step, step_value, step_capital, step_invested, step_cost.
  simpl.
  destruct (ziloc _ _ =? 1)%Z; [destruct (fle _ _)|destruct (ziloc _ _ =? -1)%Z];
    reflexivity.
Qed.

Lemma simulate_trades_step_view st st' i :
  fst st = fst st' → trade_view (snd st) = trade_view (snd st') →
  fst (simulate_trades_step st i) = fst (simulate_trades_step st' i)
  ∧ trade_view (snd (simulate_trades_step st i))
    = trade_view (snd (simulate_trades_step st' i)).
Proof.
  destruct st as [c d], st' as [c' d']. unfold trade_view. cbn [fst snd].
  intros -> [= Hc Hs Hp Hi].
  rewrite !simulate_trades_step_eq. cbn.
  unfold step_value, step_capital, step_invested, step_cost.
  by rewrite Hc, Hs, Hp, Hi.
Qed.

Lemma simulate_trades_loop_view k : ∀ st st',
  fst st = fst st' → trade_view (snd st) = trade_view (snd st') →
  fst (simulate_trades_loop st k) = fst (simulate_trades_loop st' k)
  ∧ trade_view (snd (simulate_trades_loop st k))
    = trade_view (snd (simulate_trades_loop st' k)).
Proof.
  unfold simulate_trades_loop. generalize 1.
  induction k as [|k IH]; intros a st st' Hc Hv; simpl; [done|].
  destruct (simulate_trades_step_view st st' a Hc Hv) as [Hc' Hv'].
  by apply IH.
Qed.

Lemma simulate_trades_init_eq df cap :
  simulate_trades_init df cap =
    if (len df =? 0)%nat then Raise IndexError
    else Ok (cap,
             set_Invested_Capital (<[0 := Fin 0]> (replicate (len df) NaN))
               (set_Portfolio_Value (<[0 := cap]> (replicate (len df) NaN)) df)).
Proof.
  unfold simulate_trades_init, len. destruct df; simpl.
  by destruct (length _ =? 0).
Qed.

Lemma simulate_trades_init_view df df' cap :
  close df = close df' → Signal df = Signal df' →
  match simulate_trades_init df cap, simulate_trades_init df' cap with
  | Ok st, Ok st' => fst st = fst st' ∧ trade_view (snd st) = trade_view (snd st')
  | Raise e, Raise e' => e = e'
  | _, _ => False
  end.
Proof.
  intros Hc Hs. unfold simulate_trades_init, trade_view, len. simpl.
  rewrite Hc. destruct (length (close df') =? 0); simpl; [done|].
  by rewrite Hc, Hs.
Qed.

(** The simulation is a function of the [close] and [Signal] columns alone. *)
Lemma simulate_trades_depends_on_close_and_signal df df' cap :
  close df = close df' → Signal df = Signal df' →
  on_result trade_outcome (simulate_trades df cap)
  = on_result trade_outcome (simulate_trades df' cap)
  ∧ cash_trace df cap = cash_trace df' cap.
Proof.
  intros Hc Hs. unfold simulate_trades, cash_trace.
  pose proof (simulate_trades_init_view df df' cap Hc Hs) as Hinit.
  assert (Hlen : len df = len df') by (unfold len; by rewrite Hc).
  destruct (simulate_trades_init df cap) as [st|e],
    (simulate_trades_init df' cap) as [st'|e']; simpl in *; try done.
  - destruct Hinit as [H1 H2]. split.
    + destruct (simulate_trades_loop_view (len df - 1) st st' H1 H2) as [_ Hv].
      rewrite <- Hlen. unfold trade_view in Hv.
      injection Hv as _ _ Hp Hi.
      unfold trade_outcome. simpl. by rewrite Hp, Hi.
    + rewrite <- Hlen. apply (f_equal Ok), map_ext. intros k.
      by destruct (simulate_trades_loop_view k st st' H1 H2).
  - by subst.
Qed.

Lemma ffill_go_length (s : Series) : ∀ p, length (ffill_go p s) = length s.
Proof. induction s as [|x s IH]; intros p; simpl; [done|]. by rewrite IH. Qed.

Lemma shift1_length (s : Series) : length (shift1 s) = length s.
Proof. unfold shift1. rewrite length_take. simpl. lia. Qed.

Lemma pct_change_length (s : Series) : length (pct_change s) = length s.
Proof.
  unfold pct_change.
  rewrite length_zip_with_l_eq; [apply ffill_go_length|].
  by rewrite shift1_length.
Qed.

Lemma adjust_position_size_frame np_sqrt df cap ff :
  match adjust_position_size np_sqrt df cap ff with
  | Ok df' => close df' = close df ∧ Signal df' = Signal df ∧ len df ≠ 0
  | Raise e => e = IndexError ∧ len df = 0
  end.
Proof.
  unfold adjust_position_size, iloc_last, calculate_volatility.
  cbn [Volatility set_Volatility set_Daily_Returns Daily_Returns close].
  set (vol := map _ _).
  assert (Hvol : length vol = len df).
  { unfold vol. by rewrite length_map, rolling_length, pct_change_length. }
  destruct (last vol) as [v|] eqn:E; simpl.
  - repeat split. intros H0. rewrite <- Hvol in H0.
    by destruct vol.
  - apply last_None in E. by rewrite E in Hvol.
Qed.

(** C10.  Feeding the simulator the frame that [adjust_position_size]
    returns (with its [Position Size], [Volatility] and [Daily Returns]
    columns) gives the same portfolio values, invested capital, portfolio
    returns and cash sequence as feeding it the frame without them; both runs
    raise on a frame without rows. *)
Theorem C10_simulation_ignores_position_size
    (np_sqrt : num → num) (df : DataFrame) (initial_capital fixed_fraction : num) :
  let sized := adjust_position_size np_sqrt df initial_capital fixed_fraction in
  on_result trade_outcome (sized ≫= λ d, simulate_trades d initial_capital)
  = on_result trade_outcome (simulate_trades df initial_capital)
  ∧ (sized ≫= λ d, cash_trace d initial_capital) = cash_trace df initial_capital.
Proof.
  intros sized. subst sized.
  pose proof (adjust_position_size_frame np_sqrt df initial_capital fixed_fraction) as H.
  destruct (adjust_position_size _ _ _ _) as [df'|e]; simpl.
  - destruct H as (Hc & Hs & _).
    apply simulate_trades_depends_on_close_and_signal; done.
  - destruct H as [-> H0].
    unfold simulate_trades, cash_trace.
    by rewrite simulate_trades_init_eq, H0.
Qed.

Lemma simulate_trades_loop_S st k :
  simulate_trades_loop st (S k)
  = simulate_trades_step (simulate_trades_loop st k) (S k).
Proof.
  unfold simulate_trades_loop. rewrite seq_S, foldl_app. done.
Qed.

Lemma step_invested_lookup c d i j :
  i ≠ j → step_invested c d i !! j = Invested_Capital d !! j.
Proof.
  intros Hne. unfold step_invested.
  repeat match goal with |- context [if ?b then _ else _] => destruct b end;
    try done; by apply list_lookup_insert_ne.
Qed.

Lemma step_invested_length c d i :
  length (step_invested c d i) = length (Invested_Capital d).
Proof.
  unfold step_invested.
  repeat match goal with |- context [if ?b then _ else _] => destruct b end;
    try done; by apply length_insert.
Qed.

(** What the loop leaves: input columns untouched, entries beyond the last
    visited bar untouched, entries of visited bars final. *)
Lemma simulate_trades_loop_inv st k :
  let st' := simulate_trades_loop st k in
  close (snd st') = close (snd st) ∧ Signal (snd st') = Signal (snd st)
  ∧ length (Invested_Capital (snd st')) = length (Invested_Capital (snd st))
  ∧ length (Portfolio_Value (snd st')) = length (Portfolio_Value (snd st))
  ∧ (∀ j, k < j → Invested_Capital (snd st') !! j = Invested_Capital (snd st) !! j)
  ∧ (∀ j, k < j → Portfolio_Value (snd st') !! j = Portfolio_Value (snd st) !! j)
  ∧ (∀ j, j = 0 → Invested_Capital (snd st') !! j = Invested_Capital (snd st) !! j)
  ∧ (∀ j, j = 0 → Portfolio_Value (snd st') !! j = Portfolio_Value (snd st) !! j).
Proof.
  induction k as [|k IH]; [done|].
  rewrite simulate_trades_loop_S.
  destruct (simulate_trades_loop st k) as [c d]. simpl in IH.
  destruct IH as (Hc & Hs & Hli & Hlp & Hi & Hp & Hi0 & Hp0).
  rewrite simulate_trades_step_eq. cbn.
  rewrite step_invested_length, length_insert.
  repeat split; try done.
  - intros j Hj. rewrite step_invested_lookup by lia. apply Hi. lia.
  - intros j Hj. rewrite list_lookup_insert_ne by lia. apply Hp. lia.
  - intros j ->. rewrite step_invested_lookup by lia. by apply Hi0.
  - intros j ->. rewrite list_lookup_insert_ne by lia. by apply Hp0.
Qed.

Lemma simulate_trades_loop_stable st i : ∀ k, i ≤ k →
  Invested_Capital (snd (simulate_trades_loop st k)) !! i
    = Invested_Capital (snd (simulate_trades_loop st i)) !! i
  ∧ Portfolio_Value (snd (simulate_trades_loop st k)) !! i
    = Portfolio_Value (snd (simulate_trades_loop st i)) !! i.
Proof.
  induction k as [|k IH]; intros Hk.
  - by replace i with 0 by lia.
  - destruct (decide (i = S k)) as [->|Hne]; [done|].
    destruct IH as [IH1 IH2]; [lia|].
    rewrite simulate_trades_loop_S.
    destruct (simulate_trades_loop st k) as [c d].
    rewrite simulate_trades_step_eq. cbn.
    rewrite step_invested_lookup by lia. rewrite list_lookup_insert_ne by lia.
    done.
Qed.

Lemma ffill_go_lookup_nan (s : Series) : ∀ p i,
  s !! S i = Some NaN → ffill_go p s !! S i = ffill_go p s !! i.
Proof.
  induction s as [|x s IH]; intros p i; [done|].
  simpl. destruct i as [|i].
  - destruct s as [|y s]; [done|]. simpl. by intros [= ->].
  - intros H. by rewrite (IH _ i H).
Qed.

(** After [simulate_trades_init] the loop starts from [NaN] columns seeded at
    bar 0. *)
Lemma simulate_trades_run df cap d :
  simulate_trades df cap = Ok d →
  len df ≠ 0
  ∧ ∃ st0, simulate_trades_init df cap = Ok st0
    ∧ fst st0 = cap ∧ close (snd st0) = close df ∧ Signal (snd st0) = Signal df
    ∧ Invested_Capital (snd st0) = <[0 := Fin 0]> (replicate (len df) NaN)
    ∧ Portfolio_Value (snd st0) = <[0 := cap]> (replicate (len df) NaN)
    ∧ Invested_Capital d
        = ffill (Invested_Capital (snd (simulate_trades_loop st0 (len df - 1))))
    ∧ Portfolio_Value d
        = Portfolio_Value (snd (simulate_trades_loop st0 (len df - 1)))
    ∧ Portfolio_Returns d = pct_change (Portfolio_Value d).
Proof.
  unfold simulate_trades. rewrite simulate_trades_init_eq.
  destruct (len df =? 0) eqn:E; [done|]. apply Nat.eqb_neq in E.
  cbn. intros [= <-]. split; [done|].
  eexists. split; [done|]. by destruct df.
Qed.

(** On a bar without a trade signal the loop leaves the raw
    [Invested Capital] entry at [NaN]. *)
Lemma hold_bar_raw_invested st0 n i :
  1 ≤ i ≤ n →
  ziloc (Signal (snd st0)) i ≠ 1%Z → ziloc (Signal (snd st0)) i ≠ (-1)%Z →
  Invested_Capital (snd (simulate_trades_loop st0 n)) !! i
  = Invested_Capital (snd st0) !! i.
Proof.
  intros Hi H1 H2.
  destruct (simulate_trades_loop_stable st0 i n) as [-> _]; [lia|].
  destruct i as [|i]; [lia|]. rewrite simulate_trades_loop_S.
  destruct (simulate_trades_loop_inv st0 i) as (_ & Hs & _ & _ & Hic & _).
  destruct (simulate_trades_loop st0 i) as [c d]. cbn [fst snd] in *.
  rewrite simulate_trades_step_eq. cbn. unfold step_invested. rewrite Hs.
  apply Z.eqb_neq in H1, H2. rewrite H1, H2. apply Hic. lia.
Qed.

Lemma ffill_go_defined (s : Series) : ∀ p i v,
  notna p = true → ffill_go p s !! i = Some v → notna v = true.
Proof.
  induction s as [|x s IH]; intros p i v Hp; [done|].
  assert (Hv : notna (if isnan x then p else x) = true).
  { unfold notna. destruct (isnan x) eqn:E; [done|]. by rewrite E. }
  destruct i as [|i]; cbn.
  - by intros [= <-].
  - by apply IH.
Qed.

(** A column that starts with a defined value has no [NaN] left once it is
    forward-filled. *)
Lemma ffill_defined (s : Series) x i v :
  s !! 0 = Some x → notna x = true → ffill s !! i = Some v → notna v = true.
Proof.
  destruct s as [|y s]; [done|]. cbn. intros [= ->] Hx.
  unfold ffill. cbn [ffill_go].
  assert (Hnan : isnan x = false) by (unfold notna in Hx; by destruct (isnan x)).
  rewrite Hnan. destruct i as [|i]; cbn.
  - by intros [= <-].
  - by apply ffill_go_defined.
Qed.

(** The forward-fill half of the continuity property: in the returned frame
    a bar without a trade signal carries the invested capital of the bar
    before it, and that is a defined number: the column was seeded with 0 at
    bar 0, so the fill finds a value for every bar. *)
Lemma hold_bar_inherits_invested_capital df cap d i :
  simulate_trades df cap = Ok d →
  1 ≤ i < len df →
  ziloc (Signal df) i ≠ 1%Z → ziloc (Signal df) i ≠ (-1)%Z →
  ∃ v, Invested_Capital d !! i = Some v
       ∧ Invested_Capital d !! (i - 1) = Some v
       ∧ notna v = true.
Proof.
  intros Hrun Hi H1 H2.
  destruct (simulate_trades_run df cap d Hrun)
    as (Hn & st0 & _ & _ & _ & Hs & Hic & _ & HIC & _ & _).
  rewrite <- Hs in H1, H2.
  pose proof (hold_bar_raw_invested st0 (len df - 1) i) as Hraw.
  rewrite Hic in Hraw. rewrite list_lookup_insert_ne in Hraw by lia.
  rewrite lookup_replicate_2 in Hraw by lia.
  destruct (simulate_trades_loop_inv st0 (len df - 1))
    as (_ & _ & Hlen & _ & _ & _ & Hi0 & _).
  assert (Hfirst : Invested_Capital (simulate_trades_loop st0 (len df - 1)).2 !! 0
                   = Some (Fin 0)).
  { rewrite Hi0 by done. rewrite Hic. apply list_lookup_insert_eq.
    rewrite length_replicate. lia. }
  destruct (lookup_lt_is_Some_2 (Invested_Capital d) i) as [v Hv].
  { rewrite HIC. unfold ffill. rewrite ffill_go_length, Hlen, Hic.
    rewrite length_insert, length_replicate. lia. }
  exists v. split; [done|]. split.
  - rewrite <- Hv, HIC. destruct i as [|i]; [lia|]. unfold ffill.
    rewrite ffill_go_lookup_nan by (apply Hraw; lia || done).
    by replace (S i - 1) with i by lia.
  - rewrite HIC in Hv. by apply (ffill_defined _ (Fin 0) i v Hfirst).
Qed.

(** C2, at the failing input: a buy of the whole cash at bar 1 and a hold at
    bar 2 (signal 0).  In the returned frame the hold bar has invested capital
    100000 (forward-filled from bar 1) and the cash is 0, yet the portfolio
    value recorded there is 0 rather than [cash + invested capital]: the value
    was written inside the loop, before the column was filled. *)
Theorem C2_hold_bar_value_misses_invested_capital :
  ∃ d cash,
    simulate_trades example_buy_hold (Fin 100000) = Ok d
    ∧ cash_trace example_buy_hold (Fin 100000) = Ok cash
    ∧ Signal d = [0; 1; 0]%Z
    ∧ cash = [Fin 100000; Fin 0; Fin 0]
    ∧ Invested_Capital d = [Fin 0; Fin 100000; Fin 100000]
    ∧ Portfolio_Value d = [Fin 100000; Fin 100000; Fin 0]
    ∧ value_is_cash_plus_invested d cash 1 = true
    ∧ value_is_cash_plus_invested d cash 2 = false.
Proof. eexists _, _. vm_compute. repeat split; reflexivity. Qed.

(** The same defect on a series that runs through the whole pipeline: the
    averages of [example_closes] cross upwards at bar 50, the buy there
    commits the whole cash, and the recorded portfolio value of the hold bars
    51 and 52 is 0 although 100000 stays invested. *)
Lemma pipeline_hold_bar_value_is_zero :
  let df := generate_signals
              (calculate_moving_averages (load_and_prepare_data example_data (Some "A"%string))) in
  ∃ d,
    simulate_trades df (Fin 100000) = Ok d
    ∧ drop 49 (Signal d) = [0; 1; 0; 0]%Z
    ∧ drop 49 (Invested_Capital d) = [Fin 0; Fin 100000; Fin 100000; Fin 100000]
    ∧ drop 49 (Portfolio_Value d) = [Fin 100000; Fin 100000; Fin 0; Fin 0].
Proof. eexists. vm_compute. repeat split; reflexivity. Qed.

(** C3, at the failing input: with a [Position Size] of 5000 on every bar and
    cash 100000, the buy at bar 1 commits 100000, the whole cash, and not the
    size capped at the cash, which would be 5000. *)
Theorem C3_buy_commits_cash_not_position_size :
  ∃ d cash,
    simulate_trades example_sized_buy (Fin 100000) = Ok d
    ∧ cash_trace example_sized_buy (Fin 100000) = Ok cash
    ∧ Position_Size d = [Fin 5000; Fin 5000]
    ∧ fmin (iloc (Position_Size d) 1) (iloc cash 0) = Fin 5000
    ∧ Invested_Capital d = [Fin 0; Fin 100000]
    ∧ cash = [Fin 100000; Fin 0].
Proof. eexists _, _. vm_compute. repeat split; reflexivity. Qed.

(** ** The position sizer *)

Lemma fdiv_one_degenerate v :
  isnan v = true ∨ feq v (Fin 0) = true → isfinite (fdiv (Fin 1) v) = false.
Proof.
  intros [H|H]; destruct v as [q| | |]; try done.
  simpl in *. by rewrite H.
Qed.

Lemma inf_of_nonfinite c : isfinite (inf_of c) = false.
Proof. by destruct c. Qed.

Lemma fdiv_nonfinite_l x y : isfinite x = false → isfinite (fdiv x y) = false.
Proof.
  destruct x as [a| | |], y as [b| | |]; simpl; try done;
    by destruct (Qle_bool 0 b).
Qed.

Lemma fmul_nonfinite_r x y : isfinite y = false → isfinite (fmul x y) = false.
Proof.
  destruct x as [a| | |], y as [b| | |]; simpl; try done;
    intros _; apply inf_of_nonfinite.
Qed.

Lemma adjust_position_size_eq np_sqrt df cap ff :
  adjust_position_size np_sqrt df cap ff =
    let sd := calculate_volatility np_sqrt df 20 in
    match last (Volatility sd) with
    | Some cv =>
        Ok (set_Position_Size
              (replicate (len df)
                 (fmul (fmul cap ff) (fdiv (fdiv (Fin 1) cv) (smax (Volatility sd)))))
              sd)
    | None => Raise IndexError
    end.
Proof.
  unfold adjust_position_size, iloc_last. cbv zeta.
  by destruct (last _).
Qed.

(** C9 (as amended).  When the most recent volatility is zero or [NaN], the
    sizer writes the same non-finite value (an infinity or [NaN]) as the
    [Position Size] of every bar: it is never replaced by a finite number. *)
Theorem C9_degenerate_volatility_size_is_not_finite
    (np_sqrt : num → num) (df : DataFrame) (initial_capital fixed_fraction : num)
    (d : DataFrame) :
  adjust_position_size np_sqrt df initial_capital fixed_fraction = Ok d →
  degenerate_volatility d →
  ∃ size, Position_Size d = replicate (len df) size
          ∧ isfinite size = false ∧ len df ≠ 0.
Proof.
  intros Hrun (v & Hv & Hdeg).
  pose proof (adjust_position_size_frame np_sqrt df initial_capital fixed_fraction) as Hf.
  rewrite Hrun in Hf. destruct Hf as (_ & _ & Hn).
  revert Hrun Hv. rewrite adjust_position_size_eq. cbv zeta.
  destruct (last _) as [cv|] eqn:E; [|done].
  intros [= <-]. cbn [Volatility set_Position_Size Position_Size].
  rewrite E. intros [= ->].
  eexists. split; [reflexivity|]. split; [|done].
  by apply fmul_nonfinite_r, fdiv_nonfinite_l, fdiv_one_degenerate.
Qed.

(** ** The drawdown reduction *)

Lemma flt_Fin a b : flt (Fin a) (Fin b) = true ↔ (a < b)%Q.
Proof.
  simpl. rewrite Qlt_alt. destruct (a ?= b)%Q; split; congruence.
Qed.

Lemma fle_Fin a b : fle (Fin a) (Fin b) = true ↔ (a <= b)%Q.
Proof.
  simpl. rewrite Qle_alt. destruct (a ?= b)%Q; split; congruence.
Qed.

Lemma feq_Fin a b : feq (Fin a) (Fin b) = true ↔ (a == b)%Q.
Proof. apply Qeq_bool_iff. Qed.

Lemma flt_Fin_false a b : flt (Fin a) (Fin b) = false ↔ (b <= a)%Q.
Proof.
  rewrite <- not_true_iff_false, flt_Fin. split; [apply Qnot_lt_le|apply Qle_not_lt].
Qed.

Lemma all_finite (l : Series) :
  forallb isfinite l = true → ∃ qs, l = map Fin qs.
Proof.
  induction l as [|x l IH]; simpl; [by exists []|].
  destruct x as [q| | |]; try done. intros [qs ->]%IH. by exists (q :: qs).
Qed.

Lemma dropna_map_Fin qs : dropna (map Fin qs) = map Fin qs.
Proof. induction qs as [|q qs IH]; simpl; [done|]. by rewrite IH. Qed.

(** [NaN] entries of the value series play no part in the drawdown. *)
Lemma drawdown_dropna (V : Series) : ∀ acc,
  dropna (minus_one (zip_with fdiv V (cum_go fmax acc V)))
  = dropna (minus_one (zip_with fdiv (dropna V) (cum_go fmax acc (dropna V)))).
Proof.
  induction V as [|x V IH]; intros acc; [done|].
  destruct x as [q| | |]; simpl; rewrite ?IH; done.
Qed.

Lemma max_drawdown_of_dropna V : max_drawdown_of V = max_drawdown_of (dropna V).
Proof.
  unfold max_drawdown_of, smin, cummax. by rewrite drawdown_dropna.
Qed.

(** The drawdown of one value [x] against a positive running maximum. *)
Lemma drawdown_entry M x :
  (0 < M)%Q →
  let M' := fmax (Fin M) (Fin x) in
  ∃ M'' r, M' = Fin M'' ∧ (0 < M'')%Q ∧ (M <= M'')%Q
           ∧ (M <= x → M'' == x)%Q
           ∧ fsub (fdiv (Fin x) M') (Fin 1) = Fin r ∧ (r <= 0)%Q
           ∧ (r == 0 ↔ M <= x)%Q.
Proof.
  intros HM. unfold fmax.
  destruct (flt (Fin M) (Fin x)) eqn:E.
  - apply flt_Fin in E. exists x, (Qred (Qred (x / x) - 1)).
    assert (Hx : ¬ (x == 0)%Q) by lra.
    assert (Hb : Qeq_bool x 0 = false).
    { destruct (Qeq_bool x 0) eqn:E'; [by apply Qeq_bool_iff in E'|done]. }
    simpl. rewrite Hb. simpl.
    assert (Hr : (Qred (Qred (x / x) - 1) == 0)%Q).
    { rewrite !Qred_correct. by field. }
    repeat split; try lra; done.
  - apply flt_Fin_false in E. exists M, (Qred (Qred (x / M) - 1)).
    assert (HM0 : ¬ (M == 0)%Q) by lra.
    assert (Hb : Qeq_bool M 0 = false).
    { destruct (Qeq_bool M 0) eqn:E'; [by apply Qeq_bool_iff in E'|done]. }
    simpl. rewrite Hb. simpl.
    assert (Hr : (Qred (Qred (x / M) - 1) == (x - M) / M)%Q).
    { rewrite !Qred_correct. by field. }
    assert (Hinv : (0 < / M)%Q) by (by apply Qinv_lt_0_compat).
    repeat split; try lra; try done.
    + rewrite Hr. unfold Qdiv. nra.
    + rewrite Hr. unfold Qdiv. intros H0.
      assert (x - M == 0)%Q; [|lra].
      destruct (Qmult_integral _ _ H0); lra.
    + intros HMx. rewrite Hr. assert (x - M == 0)%Q as -> by lra.
      unfold Qdiv. ring.
Qed.

Lemma non_decreasing_cons x y t :
  non_decreasing (x :: y :: t) = fle x y && non_decreasing (y :: t).
Proof. done. Qed.

Lemma non_decreasing_head a b qs :
  (a == b)%Q →
  non_decreasing (Fin a :: map Fin qs) = non_decreasing (Fin b :: map Fin qs).
Proof.
  intros H. destruct qs as [|y qs]; [done|].
  cbn [map]. rewrite !non_decreasing_cons. cbn [fle]. by rewrite H.
Qed.

(** Drawdowns of finite values against a positive running maximum [M]: none
    is positive, and all are zero exactly when the values never fall below
    the maximum seen so far. *)
Lemma drawdown_go qs : ∀ M,
  (0 < M)%Q →
  ∃ rs,
    minus_one (zip_with fdiv (map Fin qs) (cum_go fmax (Some (Fin M)) (map Fin qs)))
    = map Fin rs
    ∧ Forall (λ r, (r <= 0)%Q) rs
    ∧ (Forall (λ r, (r == 0)%Q) rs ↔ non_decreasing (Fin M :: map Fin qs) = true).
Proof.
  induction qs as [|x qs IH]; intros M HM.
  - exists []. by repeat split.
  - destruct (drawdown_entry M x HM) as (M' & r & HM' & HM'pos & _ & HMx & Hr & Hr0 & Hrz).
    destruct (IH M' HM'pos) as (rs & Hrs & Hle & Hz).
    exists (r :: rs). cbn [map cum_go isnan zip_with minus_one].
    rewrite HM' in *. unfold minus_one in Hrs |- *. cbn [map].
    rewrite Hr, Hrs.
    split; [done|]. split; [by constructor|].
    rewrite non_decreasing_cons, andb_true_iff, fle_Fin, <- Hrz.
    split.
    + intros H. inversion H as [|? ? H1 H2]; subst. split; [done|].
      rewrite <- (non_decreasing_head M' x) by (apply HMx, Hrz, H1).
      by apply Hz.
    + intros [H1 H2]. constructor; [done|]. apply Hz.
      by rewrite (non_decreasing_head M' x) by (apply HMx, Hrz, H1).
Qed.

Lemma foldl_fmin_nonpositive rs : ∀ a,
  (a <= 0)%Q → Forall (λ r, (r <= 0)%Q) rs →
  ∃ m, foldl fmin (Fin a) (map Fin rs) = Fin m ∧ (m <= 0)%Q
       ∧ ((m == 0)%Q ↔ (a == 0)%Q ∧ Forall (λ r, (r == 0)%Q) rs).
Proof.
  induction rs as [|b rs IH]; intros a Ha Hrs.
  - exists a. repeat split; try done. by intros [? _].
  - inversion Hrs as [|? ? Hb Hrs']; subst.
    cbn [map foldl]. unfold fmin at 2.
    destruct (flt (Fin b) (Fin a)) eqn:E.
    + apply flt_Fin in E. destruct (IH b Hb Hrs') as (m & -> & Hm & Hz).
      exists m. split; [done|]. split; [done|]. split.
      * intros [H1 H2]%Hz. lra.
      * intros [H1 H2]. inversion H2; subst. lra.
    + apply flt_Fin_false in E. destruct (IH a Ha Hrs') as (m & -> & Hm & Hz).
      exists m. split; [done|]. split; [done|]. split.
      * intros [H1 H2]%Hz. split; [done|]. constructor; [lra|done].
      * intros [H1 H2]. inversion H2; subst. by apply Hz.
Qed.

(** The drawdown of a finite series that starts at a positive value. *)
Lemma max_drawdown_of_finite q qs :
  (0 < q)%Q →
  ∃ m, max_drawdown_of (Fin q :: map Fin qs) = Fin m ∧ (m <= 0)%Q
       ∧ ((m == 0)%Q ↔ non_decreasing (Fin q :: map Fin qs) = true).
Proof.
  intros Hq.
  destruct (drawdown_entry q q Hq) as (M' & r & HM' & _ & _ & _ & Hr & Hr0 & Hrz).
  unfold fmax in HM', Hr. rewrite flt_irrefl in HM', Hr.
  destruct (drawdown_go qs q Hq) as (rs & Hrs & Hle & Hz).
  destruct (foldl_fmin_nonpositive rs r Hr0 Hle) as (m & Hm & Hm0 & Hmz).
  exists m. split; [|split; [done|]].
  - unfold max_drawdown_of, cummax, smin.
    cbn [cum_go isnan zip_with]. unfold minus_one in Hrs |- *. cbn [map].
    rewrite Hr, Hrs. change (Fin r :: map Fin rs) with (map Fin (r :: rs)).
    by rewrite dropna_map_Fin.
  - rewrite Hmz, Hz, Hrz. split; [by intros [_ ?]|].
    intros H. split; [lra|done].
Qed.

(** C6 (as amended).  For a value series whose defined values are finite and
    start with a positive one, the maximum drawdown is at most 0, and it is 0
    exactly when the defined values never decrease. *)
Theorem C6_max_drawdown_bound (V : Series) :
  starts_positive V = true →
  fle (max_drawdown_of V) (Fin 0) = true
  ∧ (feq (max_drawdown_of V) (Fin 0) = true ↔ non_decreasing (dropna V) = true).
Proof.
  unfold starts_positive. rewrite max_drawdown_of_dropna.
  destruct (dropna V) as [|[q| | |] rest]; try done.
  intros [Hq Hfin]%andb_true_iff. apply flt_Fin in Hq.
  destruct (all_finite rest Hfin) as [qs ->].
  destruct (max_drawdown_of_finite q qs Hq) as (m & -> & Hm & Hz).
  rewrite fle_Fin, feq_Fin. by split.
Qed.

(** C6 fails without that proviso.  The falling series [-1, -2] has maximum
    drawdown 0; the series [0, 0] has an undefined one, which is not [<= 0];
    so has the empty series. *)
Lemma C6_counterexample_negative_values :
  feq (max_drawdown_of [Fin (-1); Fin (-2)]) (Fin 0) = true
  ∧ non_decreasing [Fin (-1); Fin (-2)] = false
  ∧ fle (max_drawdown_of [Fin 0; Fin 0]) (Fin 0) = false
  ∧ fle (max_drawdown_of []) (Fin 0) = false.
Proof. by vm_compute. Qed.

(** ** Annualized return *)

(** The enhanced calculator drops the undefined returns first and divides the
    bars per year by the number of returns that are left; it raises when none
    is left. *)
Lemma portfolio_annualized_return np_sqrt np_power stock_name d :
  let R := dropna (Portfolio_Returns d) in
  match backtest_ma_portfolio.calculate_performance_metrics
          np_sqrt np_power stock_name d with
  | Ok m =>
      length R ≠ 0
      ∧ Annualized_Portfolio_Returns m
        = fsub (np_power (prod (one_plus R))
                  (Fin (Qred (inject_Z bars_per_year / inject_Z (Z.of_nat (length R))))))
               (Fin 1)
  | Raise e => length R = 0 ∧ e = ZeroDivisionError
  end.
Proof.
  unfold backtest_ma_portfolio.calculate_performance_metrics, py_truediv.
  destruct (Z.eqb_spec (Z.of_nat (length (dropna (Portfolio_Returns d)))) 0);
    cbn; split; try done; lia.
Qed.

(** C7, at the failing input.  On the 53 bars of [example_data] the simple
    variant has 52 defined strategy returns whose product of [1 + r] is 2, but
    it raises that product to [6125 / 53], the bars per year over the number
    of bars, and not to [6125 / 52]; and on a single bar, where no return is
    defined, it returns a record instead of failing. *)
Theorem C7_simple_variant_divides_by_bar_count
    (np_sqrt : num → num) (np_power : num → num → num) :
  let d := calculate_returns
             (update_position
                (generate_signals
                   (calculate_moving_averages
                      (load_and_prepare_data example_data (Some "A"%string))))) in
  len d = 53
  ∧ length (dropna (Strategy_Returns d)) = 52
  ∧ prod (one_plus (dropna (Strategy_Returns d))) = Fin 2
  ∧ on_result backtest_ma.Annualized_Strategy_Returns
      (backtest_ma.calculate_performance_metrics np_sqrt np_power (Some "A"%string) d)
    = Ok (fsub (np_power (Fin 2) (Fin (6125 # 53))) (Fin 1))
  ∧ on_result backtest_ma.Annualized_Strategy_Returns
      (backtest_ma.run_strategy np_sqrt np_power [(Some "A"%string, Fin 10)] (Some "A"%string))
    = Ok (fsub (np_power (Fin 1) (Fin 6125)) (Fin 1)).
Proof. vm_compute. repeat split; reflexivity. Qed.

(** ** Series shorter than the long window *)

Lemma iloc_rolling_mean_short W (s : Series) i :
  0 < W → length s < W → iloc (rolling_mean W s) i = NaN.
Proof.
  intros HW Hs. unfold iloc.
  destruct (decide (i < length s)) as [Hi|Hi].
  - rewrite rolling_mean_lookup by done. by rewrite decide_True by lia.
  - rewrite (lookup_ge_None_2 (rolling_mean W s)); [done|].
    unfold rolling_mean. rewrite rolling_length. lia.
Qed.

Lemma rolling_mean_short W (s : Series) :
  0 < W → length s < W → rolling_mean W s = replicate (length s) NaN.
Proof.
  intros HW Hs. apply list_eq. intros i.
  destruct (decide (i < length s)) as [Hi|Hi].
  - rewrite rolling_mean_lookup by done. rewrite decide_True by lia.
    by rewrite lookup_replicate_2.
  - rewrite (lookup_ge_None_2 (rolling_mean W s)).
    + symmetry. apply lookup_replicate_None. lia.
    + unfold rolling_mean. rewrite rolling_length. lia.
Qed.

Lemma short_series_no_signal df :
  len df < 50 →
  let df' := generate_signals (calculate_moving_averages df) in
  Signal df' = replicate (len df) 0%Z
  ∧ SMA_50 df' = replicate (len df) NaN
  ∧ close df' = close df.
Proof.
  intros Hn df'.
  destruct (generate_signals_frame (calculate_moving_averages df)) as (Hc & _ & H50 & _).
  fold df' in Hc, H50. split; [|split; [|done]].
  - apply list_eq. intros i. unfold df'. rewrite generate_signals_lookup.
    change (len (calculate_moving_averages df)) with (len df).
    repeat case_decide.
    + rewrite lookup_replicate_2 by lia. f_equal.
      unfold signal_rule, cross_up, cross_down, fgt.
      change (SMA_50 (calculate_moving_averages df)) with (rolling_mean 50 (close df)).
      rewrite (iloc_rolling_mean_short 50 (close df) i) by (done || lia).
      rewrite (flt_nan_l NaN), (flt_nan_r _ NaN) by done. done.
    + rewrite lookup_replicate_2 by lia. done.
    + symmetry. apply lookup_replicate_None. lia.
  - rewrite H50. unfold len in *.
    change (SMA_50 (calculate_moving_averages df)) with (rolling_mean 50 (close df)).
    apply rolling_mean_short; lia.
Qed.

Lemma ffill_go_replicate_nan k : ∀ p, ffill_go p (replicate k NaN) = replicate k p.
Proof. induction k as [|k IH]; intros p; simpl; [done|]. by rewrite IH. Qed.

Lemma ziloc_replicate_0 n i : ziloc (replicate n 0%Z) i = 0%Z.
Proof.
  unfold ziloc. destruct (replicate n 0%Z !! i) as [z|] eqn:E; [|done].
  by apply lookup_replicate_1 in E as [-> _].
Qed.

(** With no trade signal at all the loop keeps the capital and the raw
    [Invested Capital] column, and records [capital + 0] at every bar. *)
Lemma all_hold_loop st0 k :
  (∀ i, ziloc (Signal (snd st0)) i = 0%Z) →
  (∀ i, 1 ≤ i → iloc (Invested_Capital (snd st0)) i = NaN) →
  fst (simulate_trades_loop st0 k) = fst st0
  ∧ Invested_Capital (snd (simulate_trades_loop st0 k)) = Invested_Capital (snd st0)
  ∧ (∀ j, 1 ≤ j ≤ k → j < length (Portfolio_Value (snd st0)) →
       Portfolio_Value (snd (simulate_trades_loop st0 k)) !! j
       = Some (fadd (fst st0) (Fin 0))).
Proof.
  intros Hsig Hic. induction k as [|k IH].
  - repeat split. intros; lia.
  - destruct IH as (Hc & Hi & Hp).
    destruct (simulate_trades_loop_inv st0 k) as (_ & Hs & _ & Hlp & _).
    rewrite simulate_trades_loop_S.
    destruct (simulate_trades_loop st0 k) as [c d]. cbn [fst snd] in *.
    rewrite simulate_trades_step_eq. cbn [fst snd].
    assert (Hcap : step_capital c d (S k) = c).
    { unfold step_capital. by rewrite Hs, Hsig. }
    assert (Hinv : step_invested c d (S k) = Invested_Capital d).
    { unfold step_invested. by rewrite Hs, Hsig. }
    assert (Hval : step_value c d (S k) = fadd c (Fin 0)).
    { unfold step_value. rewrite Hcap, Hinv, Hi, Hic by lia. done. }
    rewrite Hcap, Hinv, Hval. cbn. repeat split; try done.
    intros j Hj Hjl. destruct (decide (j = S k)) as [->|Hne].
    + rewrite list_lookup_insert_eq by lia. by rewrite Hc.
    + rewrite list_lookup_insert_ne by lia. apply Hp; [lia|done].
Qed.

Lemma simulate_all_hold df cap k :
  Signal df = replicate (len df) 0%Z → len df = S k →
  ∃ d, simulate_trades df cap = Ok d
       ∧ Portfolio_Value d = cap :: replicate k (fadd cap (Fin 0))
       ∧ Invested_Capital d = replicate (S k) (Fin 0)
       ∧ Portfolio_Returns d = pct_change (Portfolio_Value d).
Proof.
  intros Hsig Hn.
  destruct (simulate_trades df cap) as [d|e] eqn:Hrun.
  2:{ revert Hrun. unfold simulate_trades. rewrite simulate_trades_init_eq, Hn. done. }
  exists d. split; [done|].
  destruct (simulate_trades_run df cap d Hrun)
    as (_ & st0 & _ & Hcap & _ & Hs & Hic & Hpv & HIC & HPV & HPR).
  destruct (all_hold_loop st0 (len df - 1)) as (_ & Hi & Hp).
  { intros i. rewrite Hs, Hsig. apply ziloc_replicate_0. }
  { intros i Hi. rewrite Hic. unfold iloc.
    rewrite list_lookup_insert_ne by lia.
    destruct (replicate (len df) NaN !! i) as [x|] eqn:E; [|done].
    by apply lookup_replicate_1 in E as [-> _]. }
  destruct (simulate_trades_loop_inv st0 (len df - 1))
    as (_ & _ & _ & Hlp & _ & _ & _ & Hp0).
  split; [|split; [|done]].
  - rewrite HPV. apply list_eq. intros j.
    destruct j as [|j].
    + rewrite Hp0 by done. rewrite Hpv.
      rewrite list_lookup_insert_eq; [done|]. rewrite length_replicate. lia.
    + change ((cap :: replicate k (fadd cap (Fin 0))) !! S j)
        with (replicate k (fadd cap (Fin 0)) !! j).
      destruct (decide (j < k)) as [Hj|Hj].
      * rewrite Hp; [|lia|rewrite Hpv, length_insert, length_replicate; lia].
        rewrite Hcap. by rewrite lookup_replicate_2.
      * rewrite (lookup_ge_None_2 (replicate k _)) by (rewrite length_replicate; lia).
        apply lookup_ge_None_2.
        rewrite Hlp, Hpv, length_insert, length_replicate. lia.
  - rewrite HIC, Hi, Hic, Hn. cbn. by rewrite ffill_go_replicate_nan.
Qed.

Lemma replicate_Fin n q : replicate n (Fin q) = map Fin (replicate n q).
Proof. induction n as [|n IH]; simpl; [done|]. by rewrite IH. Qed.

Lemma non_decreasing_replicate n q : non_decreasing (replicate n (Fin q)) = true.
Proof.
  induction n as [|n IH]; [done|]. destruct n as [|n]; [done|].
  change (replicate (S (S n)) (Fin q)) with (Fin q :: Fin q :: replicate n (Fin q)).
  rewrite non_decreasing_cons. apply andb_true_iff. split; [|done].
  apply fle_Fin. lra.
Qed.

Lemma last_cons_replicate {A} (x y : A) k : last (x :: replicate (S k) y) = Some y.
Proof.
  rewrite replicate_S_end, app_comm_cons. apply last_snoc.
Qed.

Lemma portfolio_metrics_ok np_sqrt np_power stock_name d :
  length (dropna (Portfolio_Returns d)) ≠ 0 →
  ∃ m, backtest_ma_portfolio.calculate_performance_metrics
         np_sqrt np_power stock_name d = Ok m
       ∧ Maximum_Drawdown m = max_drawdown_of (Portfolio_Value d)
       ∧ Stock_Name m = stock_name.
Proof.
  intros Hn.
  unfold backtest_ma_portfolio.calculate_performance_metrics, py_truediv.
  destruct (Z.eqb_spec (Z.of_nat (length (dropna (Portfolio_Returns d)))) 0);
    [lia|]. cbn. eauto.
Qed.

(** The metrics of a portfolio that never traded: the value stays at the
    initial capital [c > 0] on all of its two or more bars. *)
Lemma flat_portfolio_metrics np_sqrt np_power stock_name d c k :
  (0 < c)%Q →
  Portfolio_Value d = Fin c :: replicate (S k) (fadd (Fin c) (Fin 0)) →
  Portfolio_Returns d = pct_change (Portfolio_Value d) →
  ∃ m v, update_performance_metrics_with_portfolio np_sqrt np_power stock_name d = Ok m
         ∧ feq (Maximum_Drawdown m) (Fin 0) = true
         ∧ Final_Portfolio_Value m = Some v ∧ feq v (Fin c) = true.
Proof.
  intros Hc HPV HPR.
  assert (Hc0 : Qeq_bool c 0 = false).
  { destruct (Qeq_bool c 0) eqn:E; [|done]. apply Qeq_bool_iff in E. lra. }
  assert (Hret : length (dropna (Portfolio_Returns d)) ≠ 0).
  { rewrite HPR, HPV. unfold pct_change, ffill, shift1.
    cbn [fadd replicate ffill_go isnan length take zip_with fdiv fsub].
    rewrite Hc0. cbn [fsub dropna List.filter notna isnan negb length]. done. }
  destruct (portfolio_metrics_ok np_sqrt np_power stock_name d Hret)
    as (m & Hm & Hmdd & _).
  unfold update_performance_metrics_with_portfolio, iloc_last.
  rewrite Hm, HPV, last_cons_replicate. cbn.
  eexists _, _. split; [reflexivity|]. cbn. rewrite Hmdd, HPV.
  cbn [fadd]. rewrite replicate_Fin.
  destruct (max_drawdown_of_finite c (replicate (S k) (Qred (c + 0))) Hc)
    as (m' & -> & _ & Hz).
  repeat split.
  - apply feq_Fin, Hz. rewrite <- replicate_Fin.
    change (replicate (S k) ?x) with (x :: replicate k x).
    rewrite non_decreasing_cons. apply andb_true_iff. split.
    + apply fle_Fin. rewrite Qred_correct. lra.
    + apply (non_decreasing_replicate (S k)).
  - apply feq_Fin. rewrite Qred_correct. ring.
Qed.

Lemma update_position_close df : close (update_position df) = close df.
Proof.
  unfold update_position.
  by destruct (update_position_fold (len df - 1) 1 df) as (Hc & _); [lia|].
Qed.

Lemma simple_metrics_ok np_sqrt np_power stock_name d :
  len d ≠ 0 →
  ∃ m, backtest_ma.calculate_performance_metrics np_sqrt np_power stock_name d = Ok m.
Proof.
  intros Hn. unfold backtest_ma.calculate_performance_metrics, py_truediv.
  destruct (Z.eqb_spec (Z.of_nat (len d)) 0); [lia|]. cbn. eauto.
Qed.

(** C8 (as amended).  On a series of fewer than 50 bars every signal is 0 and
    the 50-bar average is undefined on every bar.  The simple backtest then
    returns a metrics record as soon as the series has one bar.  The enhanced
    backtest, started with a positive capital, returns one as soon as the
    series has two bars, and the enhanced record has maximum drawdown 0 and a
    final portfolio value equal to the initial capital. *)
Theorem C8_short_series_backtest
    (np_sqrt : num → num) (np_power : num → num → num)
    (data : RawData) (stock_name : Name) (c : Q) :
  let raw := load_and_prepare_data data stock_name in
  let df := generate_signals (calculate_moving_averages raw) in
  len raw < 50 →
  (0 < c)%Q →
  Signal df = replicate (len raw) 0%Z
  ∧ SMA_50 df = replicate (len raw) NaN
  ∧ (1 ≤ len raw →
     ∃ m, backtest_ma.run_strategy np_sqrt np_power data stock_name = Ok m)
  ∧ (2 ≤ len raw →
     ∃ m v,
       run_strategy_with_enhancements np_sqrt np_power data stock_name (Fin c) = Ok m
       ∧ feq (Maximum_Drawdown m) (Fin 0) = true
       ∧ Final_Portfolio_Value m = Some v ∧ feq v (Fin c) = true).
Proof.
  intros raw df Hn Hc.
  destruct (short_series_no_signal raw Hn) as (Hsig & H50 & Hclose).
  fold df in Hsig, H50, Hclose.
  assert (Hlen : len df = len raw) by (unfold len; by rewrite Hclose).
  split; [done|]. split; [done|]. split.
  - intros H1. unfold backtest_ma.run_strategy. fold raw. fold df.
    apply simple_metrics_ok.
    unfold len. cbn [calculate_returns close set_Stock_Returns set_Strategy_Returns
      set_Cumulative_Stock_Returns set_Cumulative_Strategy_Returns].
    rewrite update_position_close. fold (len df). lia.
  - intros H2. unfold run_strategy_with_enhancements. fold raw. fold df.
    pose proof (adjust_position_size_frame np_sqrt df (Fin c) (Fin (1 # 10))) as Hadj.
    destruct (adjust_position_size np_sqrt df (Fin c) (Fin (1 # 10))) as [d1|e];
      [|destruct Hadj; lia].
    destruct Hadj as (Hc1 & Hs1 & _). cbn.
    destruct (len raw) as [|[|k]] eqn:Hk; [lia|lia|].
    destruct (simulate_all_hold df (Fin c) (S k)) as (d & Hd & HPV & _ & HPR);
      [by rewrite Hsig, Hlen|by rewrite Hlen|].
    destruct (simulate_trades_depends_on_close_and_signal d1 df (Fin c) Hc1 Hs1)
      as [Hout _].
    rewrite Hd in Hout.
    destruct (simulate_trades d1 (Fin c)) as [d2|e]; [|done].
    cbn in Hout. injection Hout as HPV2 _ HPR2. cbn.
    apply flat_portfolio_metrics with (k := k); [done| |].
    + by rewrite HPV2, HPV.
    + by rewrite HPR2, HPR, HPV2.
Qed.

(** C8 fails as stated.  Twenty bars are fewer than 50, yet the 20-bar average
    is defined at the last of them.  On the three bars of
    [example_short_data] the enhanced record has the defined fields 0 and
    100000.  On a single bar the enhanced backtest raises
    [ZeroDivisionError], and a batch whose first instrument has a single bar
    raises with it. *)
Lemma C8_counterexample_short_series :
  len (load_and_prepare_data example_20_data (Some "A"%string)) = 20
  ∧ SMA_20 (calculate_moving_averages (load_and_prepare_data example_20_data (Some "A"%string))) !! 19
    = Some (Fin 10)
  ∧ (∀ np_sqrt np_power,
       on_result (λ m, (Maximum_Drawdown m, Final_Portfolio_Value m))
         (run_strategy_with_enhancements np_sqrt np_power
            example_short_data (Some "A"%string) (Fin 100000))
       = Ok (Fin 0, Some (Fin 100000)))
  ∧ (∀ np_sqrt np_power,
       run_strategy_with_enhancements np_sqrt np_power
         [(Some "A"%string, Fin 10)] (Some "A"%string) (Fin 100000)
       = Raise ZeroDivisionError)
  ∧ (∀ np_sqrt np_power,
       run_all_stocks_with_enhancements np_sqrt np_power
         example_batch_data (Fin 100000)
       = Raise ZeroDivisionError).
Proof. repeat split; intros; vm_compute; reflexivity. Qed.

(** C9 fails as stated.  On the three bars of [example_short_data] the most
    recent volatility is [NaN], yet the simulation is not stopped: the run
    returns a record with maximum drawdown 0 and final value 100000. *)
Lemma C9_counterexample_not_fatal :
  (∀ np_sqrt,
     on_result (λ d, last (Volatility d))
       (adjust_position_size np_sqrt example_short (Fin 100000) (Fin (1 # 10)))
     = Ok (Some NaN))
  ∧ (∀ np_sqrt np_power,
       on_result (λ m, (Maximum_Drawdown m, Final_Portfolio_Value m))
         (run_strategy_with_enhancements np_sqrt np_power
            example_short_data (Some "A"%string) (Fin 100000))
       = Ok (Fin 0, Some (Fin 100000))).
Proof. repeat split; intros; vm_compute; reflexivity. Qed.

(** ** The theorems at concrete inputs *)

Lemma C1_crossover_signal_witness :
  1 < len example_cross
  ∧ Signal (generate_signals example_cross) !! 1 = Some 1%Z.
Proof.
  assert (H : 1 < len example_cross) by (vm_compute; lia).
  split; [exact H|].
  destruct (C1_crossover_signal example_cross 1 H) as [_ Hi].
  destruct Hi as [Hup _]; [lia|].
  apply Hup. split; reflexivity.
Defined.


Lemma C5_position_tracking_witness :
  1 ≤ 50 < len example_frame
  ∧ ziloc (Signal (generate_signals example_frame)) 50 = 1%Z
  ∧ ziloc (Signal (generate_signals example_frame)) 51 = 0%Z
  ∧ ziloc (Position (update_position (generate_signals example_frame))) 50 = 1%Z
  ∧ ziloc (Position (update_position (generate_signals example_frame))) 51 = 1%Z.
Proof.
  assert (H : 1 ≤ 50 < len example_frame) by (vm_compute; lia).
  assert (H' : 1 ≤ 51 < len example_frame) by (vm_compute; lia).
  split; [exact H|].
  split; [vm_compute; reflexivity|]. split; [vm_compute; reflexivity|]. split.
  - destruct (C5_position_tracking example_frame 50 H) as (_ & _ & _ & Hbuy & _).
    apply Hbuy. vm_compute. reflexivity.
  - destruct (C5_position_tracking example_frame 51 H')
      as (_ & _ & _ & _ & _ & Hhold & _).
    rewrite Hhold by (vm_compute; reflexivity).
    vm_compute. reflexivity.
Defined.

Lemma C6_max_drawdown_bound_witness :
  starts_positive example_values = true
  ∧ fle (max_drawdown_of example_values) (Fin 0) = true
  ∧ feq (max_drawdown_of example_values) (Fin 0) = false.
Proof.
  split; [reflexivity|].
  destruct (C6_max_drawdown_bound example_values eq_refl) as [Hle Hz].
  split; [exact Hle|].
  destruct (feq (max_drawdown_of example_values) (Fin 0)); [|reflexivity].
  destruct Hz as [Hz _]. specialize (Hz eq_refl). vm_compute in Hz. discriminate Hz.
Defined.

Lemma C8_short_series_backtest_witness :
  len (load_and_prepare_data example_short_data (Some "A"%string)) < 50
  ∧ (0 < 100000)%Q
  ∧ Signal example_short = [0; 0; 0]%Z
  ∧ SMA_50 example_short = [NaN; NaN; NaN].
Proof.
  assert (H : len (load_and_prepare_data example_short_data (Some "A"%string)) < 50)
    by (vm_compute; lia).
  assert (Hc : (0 < 100000)%Q) by reflexivity.
  split; [exact H|]. split; [exact Hc|].
  destruct (C8_short_series_backtest (λ x, x) (λ x _, x)
              example_short_data (Some "A"%string) 100000 H Hc) as (Hs & H50 & _).
  split; [exact Hs|exact H50].
Defined.

Lemma C9_degenerate_volatility_witness :
  degenerate_volatility example_short_sized
  ∧ ∃ size, Position_Size example_short_sized = replicate (len example_short) size
            ∧ isfinite size = false ∧ len example_short ≠ 0.
Proof.
  assert (H : degenerate_volatility example_short_sized).
  { exists NaN. split; [reflexivity|]. left. reflexivity. }
  split; [exact H|].
  apply (C9_degenerate_volatility_size_is_not_finite
           (λ x, x) example_short (Fin 100000) (Fin (1 # 10)) example_short_sized);
    [vm_compute; reflexivity|exact H].
Defined.

Lemma hold_bar_inherits_invested_capital_witness :
  simulate_trades example_buy_hold (Fin 100000) = Ok example_buy_hold_result
  ∧ Invested_Capital example_buy_hold_result !! 2 = Some (Fin 100000)
  ∧ ∃ v, Invested_Capital example_buy_hold_result !! 2 = Some v
         ∧ Invested_Capital example_buy_hold_result !! (2 - 1) = Some v
         ∧ notna v = true.
Proof.
  assert (Hrun : simulate_trades example_buy_hold (Fin 100000)
                 = Ok example_buy_hold_result) by (vm_compute; reflexivity).
  split; [exact Hrun|]. split; [reflexivity|].
  apply (hold_bar_inherits_invested_capital
           example_buy_hold (Fin 100000) example_buy_hold_result 2 Hrun);
    [vm_compute; lia|discriminate|discriminate].
Defined.

(** * Further properties of the two scripts *)

(** ** Signals and positions *)

Lemma no_signal_without_previous_long_average df i :
  1 ≤ i < len df → iloc (SMA_50 df) (i - 1) = NaN →
  Signal (generate_signals df) !! i = Some 0%Z.
Proof.
  intros Hi Hnan. rewrite generate_signals_lookup, decide_True by done.
  f_equal. unfold signal_rule, cross_up, cross_down, fgt.
  rewrite Hnan. rewrite (flt_nan_r _ NaN), (flt_nan_l NaN) by done.
  by rewrite !andb_false_r.
Qed.

Lemma iloc_SMA_50_warmup df i :
  i < 49 → iloc (SMA_50 (calculate_moving_averages df)) i = NaN.
Proof.
  intros Hi.
  change (SMA_50 (calculate_moving_averages df)) with (rolling_mean 50 (close df)).
  unfold iloc. destruct (decide (i < length (close df))) as [Hl|Hl].
  - rewrite rolling_mean_lookup by lia. by rewrite decide_True by lia.
  - rewrite (lookup_ge_None_2 (rolling_mean _ _)); [done|].
    unfold rolling_mean. rewrite rolling_length. lia.
Qed.

(** Warm-up.  With the two windows of [calculate_moving_averages] no bar up
    to index 49 carries a signal: a cross at [i] needs the 50-bar average at
    [i-1], which is first defined at bar 49. *)
Theorem no_signal_before_bar_50 (df : DataFrame) (i : nat) :
  i < len df → i ≤ 49 →
  Signal (generate_signals (calculate_moving_averages df)) !! i = Some 0%Z.
Proof.
  intros Hi H49. destruct i as [|i].
  - rewrite generate_signals_lookup.
    change (len (calculate_moving_averages df)) with (len df).
    repeat case_decide; try lia; done.
  - apply no_signal_without_previous_long_average.
    + change (len (calculate_moving_averages df)) with (len df). lia.
    + apply iloc_SMA_50_warmup. lia.
Qed.

(** The same non-zero signal never occurs on two consecutive bars: a buy at
    [i] needs the short average above the long one at [i], a buy at [i+1]
    needs it below at [i]; likewise for sells. *)
Theorem no_repeated_signal (df : DataFrame) (i : nat) (z : Z) :
  Signal (generate_signals df) !! i = Some z →
  Signal (generate_signals df) !! S i = Some z →
  z = 0%Z.
Proof.
  rewrite !generate_signals_lookup.
  destruct (decide (1 ≤ i < len df)) as [Hi|Hi];
    [|repeat case_decide; congruence].
  case_decide; [|case_decide; [lia|done]].
  unfold signal_rule, cross_up, cross_down, fgt.
  replace (S i - 1) with i by lia.
  pose proof (flt_asym (iloc (SMA_50 df) i) (iloc (SMA_20 df) i)) as Hasym.
  destruct (flt (iloc (SMA_50 df) i) (iloc (SMA_20 df) i)),
    (flt (iloc (SMA_20 df) i) (iloc (SMA_50 df) i));
    try (by discriminate Hasym);
    destruct (flt (iloc (SMA_20 df) (i - 1)) (iloc (SMA_50 df) (i - 1))),
      (flt (iloc (SMA_50 df) (i - 1)) (iloc (SMA_20 df) (i - 1))),
      (flt (iloc (SMA_50 df) (S i)) (iloc (SMA_20 df) (S i))),
      (flt (iloc (SMA_20 df) (S i)) (iloc (SMA_50 df) (S i)));
    simpl; congruence.
Qed.

Lemma signal_rule_range s l i :
  signal_rule s l i 0 = 1%Z ∨ signal_rule s l i 0 = (-1)%Z ∨ signal_rule s l i 0 = 0%Z.
Proof.
  unfold signal_rule. destruct (cross_up s l i); [by left|].
  destruct (cross_down s l i); [right; by left|right; by right].
Qed.

Lemma position_binary df : ∀ i,
  i < len df →
  ziloc (Position (update_position (generate_signals df))) i = 0%Z
  ∨ ziloc (Position (update_position (generate_signals df))) i = 1%Z.
Proof.
  destruct (update_position_generate_signals df) as (_ & _ & _ & H0 & Hin).
  induction i as [|i IH]; intros Hi.
  - left. unfold ziloc. by rewrite H0.
  - unfold ziloc at 1 2. rewrite Hin by lia. cbn [default].
    unfold position_rule.
    destruct (_ =? 1)%Z; [by right|]. destruct (_ =? -1)%Z; [by left|].
    replace (S i - 1) with i by lia. apply IH. lia.
Qed.

(** After [generate_signals] and [update_position] every bar has a signal in
    [{-1, 0, 1}] and a position in [{0, 1}]. *)
Theorem signal_and_position_ranges (df : DataFrame) (i : nat) :
  i < len df →
  let df' := update_position (generate_signals df) in
  (∃ z, Signal df' !! i = Some z ∧ (z = 1 ∨ z = -1 ∨ z = 0)%Z)
  ∧ (∃ p, Position df' !! i = Some p ∧ (p = 0 ∨ p = 1)%Z).
Proof.
  intros Hi df'.
  destruct (update_position_generate_signals df) as (_ & Hs & Hl & _).
  fold df' in Hs, Hl. split.
  - rewrite Hs, generate_signals_lookup.
    repeat case_decide; try lia.
    + eexists. split; [done|]. apply signal_rule_range.
    + eexists. split; [done|]. by right; right.
  - destruct (Position df' !! i) as [p|] eqn:E.
    + exists p. split; [done|].
      pose proof (position_binary df i Hi) as Hb. fold df' in Hb.
      unfold ziloc in Hb. by rewrite E in Hb.
    + apply lookup_ge_None_1 in E. lia.
Qed.

(** The position [update_position] returns at bar [i] is 1 exactly when the
    last trade signal that [generate_signals] produced up to [i] is a buy. *)
Theorem position_is_last_trade (df : DataFrame) (i : nat) :
  i < len df →
  let generated := generate_signals df in
  let df' := update_position generated in
  ziloc (Position df') i = 1%Z ↔ last_trade_is_buy (Signal generated) i.
Proof.
  intros Hi generated df'.
  destruct (update_position_generate_signals df) as (_ & Hsig & _ & H0 & Hin).
  fold generated df' in Hsig, H0, Hin. rewrite <- Hsig. revert Hi.
  induction i as [|i IH]; intros Hi.
  - unfold ziloc at 1. rewrite H0 by lia. cbn. split; [done|].
    intros (j & Hj & _). lia.
  - unfold ziloc at 1. rewrite Hin by lia. cbn [default].
    replace (S i - 1) with i by lia. unfold position_rule.
    destruct (Z.eqb_spec (ziloc (Signal df') (S i)) 1) as [E1|E1].
    { split; [|done]. intros _. exists (S i). repeat split; try lia. }
    destruct (Z.eqb_spec (ziloc (Signal df') (S i)) (-1)) as [E2|E2].
    { split; [done|]. intros (j & Hj & Hbuy & Hno).
      destruct (decide (j = S i)) as [->|Hne]; [congruence|].
      exfalso. apply (Hno (S i)); [lia|done]. }
    rewrite IH by lia. split.
    + intros (j & Hj & Hbuy & Hno). exists j. repeat split; try lia; try done.
      intros k Hk. destruct (decide (k = S i)) as [->|Hne]; [done|].
      apply Hno. lia.
    + intros (j & Hj & Hbuy & Hno).
      destruct (decide (j = S i)) as [->|Hne]; [congruence|].
      exists j. repeat split; try lia; try done.
      intros k Hk. apply Hno. lia.
Qed.

(** ** A flat price series *)

Lemma foldl_fadd_replicate k c : ∀ a,
  ∃ a', foldl fadd (Fin a) (replicate k (Fin c)) = Fin a'
        ∧ (a' == a + inject_Z (Z.of_nat k) * c)%Q.
Proof.
  induction k as [|k IH]; intros a.
  - exists a. split; [done|]. cbn. ring.
  - cbn [replicate foldl fadd].
    destruct (IH (Qred (a + c))) as (a' & -> & Ha').
    exists a'. split; [done|].
    rewrite Ha', Qred_correct, Nat2Z.inj_succ. unfold Z.succ.
    rewrite inject_Z_plus. ring.
Qed.

Lemma forallb_isfinite_replicate k c : forallb isfinite (replicate k (Fin c)) = true.
Proof. induction k as [|k IH]; [done|]. exact IH. Qed.

Lemma rolling_mean_constant W n c i :
  0 < W → W - 1 ≤ i → i < n →
  rolling_mean W (replicate n (Fin c)) !! i = Some (Fin (Qred c)).
Proof.
  intros HW Hi Hn.
  rewrite rolling_mean_lookup by (rewrite ?length_replicate; lia).
  rewrite decide_False by lia. f_equal.
  rewrite drop_replicate, take_replicate.
  replace (W `min` (n - (i + 1 - W))) with W by lia.
  rewrite forallb_isfinite_replicate.
  unfold fsum. destruct (foldl_fadd_replicate W c 0) as (a' & -> & Ha').
  assert (HW0 : ¬ (inject_Z (Z.of_nat W) == 0)%Q).
  { unfold Qeq. cbn. lia. }
  unfold of_nat, of_Z. cbn [fdiv].
  destruct (Qeq_bool (inject_Z (Z.of_nat W)) 0) eqn:E;
    [by apply Qeq_bool_iff in E|].
  f_equal. apply Qred_complete. rewrite Ha'. by field.
Qed.

Lemma iloc_rolling_mean_constant W n c i :
  0 < W →
  iloc (rolling_mean W (replicate n (Fin c))) i = NaN
  ∨ iloc (rolling_mean W (replicate n (Fin c))) i = Fin (Qred c).
Proof.
  intros HW. unfold iloc.
  destruct (decide (i < n)) as [Hn|Hn].
  - destruct (decide (W - 1 ≤ i)) as [Hi|Hi].
    + right. by rewrite rolling_mean_constant.
    + left. rewrite rolling_mean_lookup by (rewrite ?length_replicate; lia).
      by rewrite decide_True by lia.
  - left. rewrite (lookup_ge_None_2 (rolling_mean _ _)); [done|].
    unfold rolling_mean. rewrite rolling_length, length_replicate. lia.
Qed.

Lemma flt_nan_or_same x y q :
  x = NaN ∨ x = Fin q → y = NaN ∨ y = Fin q → flt x y = false.
Proof.
  intros [->| ->] [->| ->]; try done. apply flt_irrefl.
Qed.

Lemma all_hold_positions df :
  Signal (generate_signals df) = replicate (len df) 0%Z →
  Position (update_position (generate_signals df)) = replicate (len df) 0%Z.
Proof.
  intros Hsig.
  destruct (update_position_generate_signals df) as (_ & Hs & Hl & H0 & Hin).
  apply list_eq. intros i.
  destruct (decide (i < len df)) as [Hi|Hi].
  - rewrite lookup_replicate_2 by done. revert Hi.
    induction i as [|i IH]; intros Hi; [by apply H0|].
    rewrite Hin by lia. rewrite Hs, Hsig, ziloc_replicate_0.
    unfold position_rule. change (0 =? 1)%Z with false.
    change (0 =? -1)%Z with false. cbv iota.
    replace (S i - 1) with i by lia.
    unfold ziloc. by rewrite IH by lia.
  - rewrite (lookup_ge_None_2 (replicate _ _)) by (rewrite length_replicate; lia).
    apply lookup_ge_None_2. lia.
Qed.

(** On a series whose close never changes the two averages coincide wherever
    both are defined, so no bar carries a signal and the position stays
    flat, whatever the length of the series. *)
Theorem flat_series_never_trades (df : DataFrame) (c : Q) :
  close df = replicate (len df) (Fin c) →
  let df' := update_position (generate_signals (calculate_moving_averages df)) in
  Signal df' = replicate (len df) 0%Z ∧ Position df' = replicate (len df) 0%Z.
Proof.
  intros Hc df'.
  assert (Hsig : Signal (generate_signals (calculate_moving_averages df))
                 = replicate (len df) 0%Z).
  { apply list_eq. intros i. rewrite generate_signals_lookup.
    change (len (calculate_moving_averages df)) with (len df).
    change (SMA_20 (calculate_moving_averages df)) with (rolling_mean 20 (close df)).
    change (SMA_50 (calculate_moving_averages df)) with (rolling_mean 50 (close df)).
    rewrite Hc.
    repeat case_decide; try lia.
    - rewrite lookup_replicate_2 by lia. f_equal.
      unfold signal_rule, cross_up, cross_down, fgt.
      assert (H20 : ∀ j, iloc (rolling_mean 20 (replicate (len df) (Fin c))) j = NaN
                        ∨ iloc (rolling_mean 20 (replicate (len df) (Fin c))) j
                          = Fin (Qred c))
        by (intros; apply iloc_rolling_mean_constant; lia).
      assert (H50 : ∀ j, iloc (rolling_mean 50 (replicate (len df) (Fin c))) j = NaN
                        ∨ iloc (rolling_mean 50 (replicate (len df) (Fin c))) j
                          = Fin (Qred c))
        by (intros; apply iloc_rolling_mean_constant; lia).
      by rewrite !(flt_nan_or_same _ _ (Qred c)) by auto.
    - rewrite lookup_replicate_2 by lia. done.
    - symmetry. apply lookup_replicate_None. lia. }
  destruct (update_position_generate_signals (calculate_moving_averages df))
    as (_ & Hs & _).
  split.
  - unfold df'. by rewrite Hs.
  - by apply (all_hold_positions (calculate_moving_averages df)).
Qed.

(** ** Which runs return a record and which raise *)

Lemma len_load_and_prepare_data data name :
  len (load_and_prepare_data data name)
  = length (List.filter (λ r, name_eq (fst r) name) data).
Proof. unfold len, load_and_prepare_data. cbn. apply length_map. Qed.

Lemma name_eq_Some a s : name_eq a (Some s) = true ↔ a = Some s.
Proof.
  destruct a as [x|]; cbn; [|done].
  rewrite String.eqb_eq. split; congruence.
Qed.

Lemma name_eq_None a : name_eq a None = false.
Proof. by destruct a. Qed.

(** No row is selected for the missing name, nor for a name that is not in
    the table. *)
Lemma len_load_zero data name :
  len (load_and_prepare_data data name) = 0
  ↔ name = None ∨ ¬ In name (map fst data).
Proof.
  rewrite len_load_and_prepare_data. destruct name as [s|].
  - induction data as [|[n c] data IH]; cbn; [tauto|].
    destruct (name_eq n (Some s)) eqn:E; cbn.
    + apply name_eq_Some in E as ->. split; [lia|].
      intros [?|H]; [done|]. exfalso. apply H. by left.
    + rewrite IH. split.
      * intros [?|H]; [done|]. right. intros [->|?]; [|done].
        by rewrite (proj2 (name_eq_Some _ _)) in E.
      * intros [?|H]; [done|]. right. intros ?. apply H. by right.
  - split; [by left|]. intros _.
    induction data as [|[n c] data IH]; cbn; [done|].
    by rewrite name_eq_None.
Qed.

Lemma same_key_true a b : same_key a b = true ↔ a = b.
Proof.
  destruct a, b; cbn; rewrite ?String.eqb_eq; split; congruence.
Qed.

Lemma unique_go_In seen l x :
  In x (unique_go seen l) ↔ In x l ∧ ¬ In x seen.
Proof.
  revert seen. induction l as [|y l IH]; intros seen; cbn; [tauto|].
  destruct (existsb (same_key y) seen) eqn:E.
  - apply existsb_exists in E as (z & Hz & E).
    apply (proj1 (same_key_true _ _)) in E as ->.
    rewrite IH. split; [tauto|]. intros [[->|H] Hn]; tauto.
  - assert (Hy : ¬ In y seen).
    { intros H. apply not_true_iff_false in E. apply E, existsb_exists.
      exists y. split; [done|]. by apply same_key_true. }
    cbn. rewrite IH. cbn. split.
    + intros [->|[H Hn]]; [tauto|]. split; [tauto|]. tauto.
    + intros [[->|H] Hn]; [tauto|].
      destruct (decide (y = x)) as [->|Hne]; [by left|].
      right. split; [done|]. intros [?|?]; tauto.
Qed.

Lemma unique_In l x : In x (unique l) ↔ In x l.
Proof. unfold unique. rewrite unique_go_In. cbn. tauto. Qed.

(** Sequential runs: all succeed, or the error every failing run raises. *)
Lemma mapM_result_ok {A B} (f : A → result B) (g : B → A) (l : list A) :
  (∀ x, In x l → ∃ y, f x = Ok y ∧ g y = x) →
  ∃ ys, mapM f l = Ok ys ∧ map g ys = l.
Proof.
  induction l as [|x l IH]; intros H; cbn.
  - by exists [].
  - destruct (H x) as (y & Hy & Hg); [by left|].
    destruct IH as (ys & Hys & Hm); [intros z Hz; apply H; by right|].
    exists (y :: ys). rewrite Hy. cbn. rewrite Hys. cbn. by rewrite Hg, Hm.
Qed.

Lemma mapM_result_raise {A B} (f : A → result B) (e : exn) (l : list A) :
  (∀ x, In x l → (∃ y, f x = Ok y) ∨ f x = Raise e) →
  (∃ x, In x l ∧ f x = Raise e) →
  mapM f l = Raise e.
Proof.
  induction l as [|x l IH]; intros H (z & Hz & Hfz); [done|].
  cbn. destruct (H x) as [(y & Hy)|Hy]; [by left| |by rewrite Hy].
  rewrite Hy. cbn. rewrite IH; [done| |].
  - intros w Hw. apply H. by right.
  - destruct Hz as [->|Hz]; [congruence|]. by exists z.
Qed.

Lemma simple_pipeline_len df :
  len (calculate_returns
         (update_position (generate_signals (calculate_moving_averages df))))
  = len df.
Proof.
  unfold len. cbn [calculate_returns close set_Stock_Returns set_Strategy_Returns
    set_Cumulative_Stock_Returns set_Cumulative_Strategy_Returns].
  rewrite update_position_close.
  by destruct (generate_signals_frame (calculate_moving_averages df)) as (-> & _).
Qed.

Lemma simple_run_result np_sqrt np_power data name :
  match backtest_ma.run_strategy np_sqrt np_power data name with
  | Ok m => len (load_and_prepare_data data name) ≠ 0 ∧ backtest_ma.Stock_Name m = name
  | Raise e => len (load_and_prepare_data data name) = 0 ∧ e = ZeroDivisionError
  end.
Proof.
  unfold backtest_ma.run_strategy, backtest_ma.calculate_performance_metrics, py_truediv.
  rewrite simple_pipeline_len.
  destruct (Z.eqb_spec (Z.of_nat (len (load_and_prepare_data data name))) 0);
    cbn -[len load_and_prepare_data]; split; try done; lia.
Qed.

(** The simple backtest of one instrument returns a record, labelled with
    the instrument, whenever the table has a row for it.  It raises
    [ZeroDivisionError] for a name the table does not contain, and for the
    missing name, which equals the name of no row. *)
Theorem run_strategy_raises_iff_unknown_name
    (np_sqrt : num → num) (np_power : num → num → num)
    (data : RawData) (stock_name : Name) :
  (is_Some stock_name → In stock_name (map fst data) →
   ∃ m, backtest_ma.run_strategy np_sqrt np_power data stock_name = Ok m
        ∧ backtest_ma.Stock_Name m = stock_name)
  ∧ (stock_name = None ∨ ¬ In stock_name (map fst data) →
     backtest_ma.run_strategy np_sqrt np_power data stock_name
     = Raise ZeroDivisionError).
Proof.
  pose proof (simple_run_result np_sqrt np_power data stock_name) as H.
  pose proof (len_load_zero data stock_name) as Hz.
  destruct (backtest_ma.run_strategy np_sqrt np_power data stock_name) as [m|e].
  - destruct H as [Hn Hm]. split; [eauto|]. intros Hnot. tauto.
  - destruct H as [Hn ->]. split; [|done]. intros [s ->] Hin.
    apply Hz in Hn as [?|?]; done.
Qed.

(** The simple batch.  When no row of the table has a missing name it returns
    one record per instrument, in the order in which the instruments first
    appear.  When some row has a missing name, [unique()] lists that name, no
    row is selected for it, and the batch raises [ZeroDivisionError]. *)
Theorem run_all_stocks_returns_one_record_per_instrument
    (np_sqrt : num → num) (np_power : num → num → num) (data : RawData) :
  (¬ In None (map fst data) →
   ∃ ms, backtest_ma.run_all_stocks np_sqrt np_power data = Ok ms
         ∧ map backtest_ma.Stock_Name ms = unique (map fst data))
  ∧ (In None (map fst data) →
     backtest_ma.run_all_stocks np_sqrt np_power data = Raise ZeroDivisionError).
Proof.
  unfold backtest_ma.run_all_stocks. split.
  - intros Hnone. apply mapM_result_ok.
    intros name Hin. apply (proj1 (unique_In _ _)) in Hin.
    pose proof (simple_run_result np_sqrt np_power data name) as H.
    pose proof (len_load_zero data name) as Hz.
    destruct (backtest_ma.run_strategy np_sqrt np_power data name) as [m|e].
    + destruct H. eauto.
    + destruct H as [H0 _]. apply Hz in H0 as [->|?]; done.
  - intros Hnone. apply mapM_result_raise.
    + intros name _.
      pose proof (simple_run_result np_sqrt np_power data name) as H.
      destruct (backtest_ma.run_strategy np_sqrt np_power data name) as [m|e];
        [eauto|]. destruct H as [_ ->]. by right.
    + exists None. split; [by apply unique_In|].
      pose proof (simple_run_result np_sqrt np_power data None) as H.
      pose proof (len_load_zero data None) as Hz.
      destruct (backtest_ma.run_strategy np_sqrt np_power data None) as [m|e].
      * destruct H as [H _]. exfalso. apply H, Hz. by left.
      * by destruct H as [_ ->].
Qed.

Lemma simulate_second_bar df cap d :
  simulate_trades df cap = Ok d → 2 ≤ len df → ziloc (Signal df) 1 = 0%Z →
  Portfolio_Value d !! 0 = Some cap
  ∧ Portfolio_Value d !! 1 = Some (fadd cap (Fin 0)).
Proof.
  intros Hrun Hn Hsig.
  destruct (simulate_trades_run df cap d Hrun)
    as (_ & st0 & _ & Hcap & _ & Hs & Hic & Hpv & _ & -> & _).
  destruct (simulate_trades_loop_inv st0 (len df - 1))
    as (_ & _ & _ & _ & _ & _ & _ & Hp0).
  split.
  - rewrite Hp0 by done. rewrite Hpv. apply list_lookup_insert_eq.
    rewrite length_replicate. lia.
  - destruct (simulate_trades_loop_stable st0 1 (len df - 1)) as [_ ->]; [lia|].
    rewrite simulate_trades_loop_S.
    change (simulate_trades_loop st0 0) with st0.
    destruct st0 as [c0 d0]. cbn [fst snd] in *. subst c0.
    rewrite simulate_trades_step_eq. cbn [snd Portfolio_Value set_Portfolio_Value].
    rewrite list_lookup_insert_eq
      by (rewrite Hpv, length_insert, length_replicate; lia).
    f_equal. unfold step_value, step_capital, step_invested.
    rewrite Hs, Hsig. cbn [Z.eqb Pos.eqb]. rewrite Hic. unfold iloc.
    rewrite list_lookup_insert_ne by lia.
    by rewrite lookup_replicate_2 by lia.
Qed.

Lemma pct_change_defined_at_1 (s : Series) a b :
  s !! 0 = Some (Fin a) → s !! 1 = Some (Fin b) → ¬ (a == 0)%Q →
  ∃ r, pct_change s !! 1 = Some (Fin r).
Proof.
  destruct s as [|x [|y t]]; try done. cbn. intros [= ->] [= ->] Ha.
  unfold pct_change, ffill, shift1.
  cbn [ffill_go isnan length take zip_with lookup list_lookup fdiv].
  destruct (Qeq_bool a 0) eqn:E; [by apply Qeq_bool_iff in E|].
  cbn. eauto.
Qed.

Lemma dropna_nonempty (s : Series) i x :
  s !! i = Some x → notna x = true → length (dropna s) ≠ 0.
Proof.
  revert i. induction s as [|y s IH]; intros i; [done|].
  destruct i as [|i]; cbn.
  - intros [= ->] ->. done.
  - intros H Hx. destruct (notna y); cbn; [done|]. by apply (IH i).
Qed.

(** How the enhanced run of one instrument ends, by the number of its bars. *)
Lemma enhanced_run_result np_sqrt np_power data name c :
  (0 < c)%Q →
  match run_strategy_with_enhancements np_sqrt np_power data name (Fin c) with
  | Ok m => 2 ≤ len (load_and_prepare_data data name) ∧ Stock_Name m = name
  | Raise e =>
      (len (load_and_prepare_data data name) = 0 ∧ e = IndexError)
      ∨ (len (load_and_prepare_data data name) = 1 ∧ e = ZeroDivisionError)
  end.
Proof.
  intros Hc. unfold run_strategy_with_enhancements.
  set (raw := load_and_prepare_data data name).
  set (df := generate_signals (calculate_moving_averages raw)).
  assert (Hlen : len df = len raw).
  { unfold len, df.
    by destruct (generate_signals_frame (calculate_moving_averages raw)) as (-> & _). }
  pose proof (adjust_position_size_frame np_sqrt df (Fin c) (Fin (1 # 10))) as Hadj.
  destruct (adjust_position_size np_sqrt df (Fin c) (Fin (1 # 10))) as [d1|e].
  2:{ destruct Hadj as [-> H0]. cbn -[len]. left. split; [lia|done]. }
  destruct Hadj as (Hc1 & Hs1 & Hn0). cbn -[len].
  pose proof (simulate_trades_depends_on_close_and_signal d1 df (Fin c) Hc1 Hs1)
    as [Hout _].
  destruct (simulate_trades df (Fin c)) as [d|e] eqn:Hrun.
  2:{ revert Hrun. unfold simulate_trades. rewrite simulate_trades_init_eq.
      destruct (Nat.eqb_spec (len df) 0); [lia|done]. }
  destruct (simulate_trades d1 (Fin c)) as [d2|e]; [|done].
  cbn in Hout. injection Hout as HPV2 _ HPR2. cbn -[len].
  destruct (simulate_trades_run df (Fin c) d Hrun)
    as (_ & _ & _ & _ & _ & _ & _ & _ & _ & _ & HPR).
  destruct (decide (len raw = 1)) as [H1|H1].
  - destruct (short_series_no_signal raw) as (Hsig & _); [lia|]. fold df in Hsig.
    destruct (simulate_all_hold df (Fin c) 0) as (d' & Hd' & HPV' & _);
      [by rewrite Hsig, Hlen|lia|].
    rewrite Hrun in Hd'. injection Hd' as <-.
    unfold update_performance_metrics_with_portfolio,
      backtest_ma_portfolio.calculate_performance_metrics, py_truediv.
    rewrite HPR2, HPR, HPV'. cbn -[len]. right. split; [done|done].
  - assert (Hsig : ziloc (Signal df) 1 = 0%Z).
    { unfold ziloc, df. rewrite no_signal_without_previous_long_average; [done| |].
      - change (len (calculate_moving_averages raw)) with (len raw). lia.
      - apply iloc_SMA_50_warmup. lia. }
    destruct (simulate_second_bar df (Fin c) d Hrun) as [HP0 HP1]; [lia|done|].
    destruct (pct_change_defined_at_1 (Portfolio_Value d) c (Qred (c + 0)))
      as [r Hr]; [done|done|lra|].
    assert (Hret : length (dropna (Portfolio_Returns d2)) ≠ 0).
    { rewrite HPR2, HPR. by apply (dropna_nonempty _ 1 (Fin r)). }
    destruct (portfolio_metrics_ok np_sqrt np_power name d2 Hret)
      as (m & Hm & _ & Hname).
    unfold update_performance_metrics_with_portfolio, iloc_last.
    rewrite Hm. cbn -[len].
    destruct (last (Portfolio_Value d2)) as [v|] eqn:Elast.
    + cbn -[len]. split; [lia|done].
    + apply last_None in Elast. rewrite <- HPV2, Elast in HP0. done.
Qed.

(** The enhanced backtest of one instrument, started with a positive capital:
    it raises [IndexError] when the table has no row for the instrument,
    [ZeroDivisionError] when it has exactly one, and returns a record
    labelled with the instrument when it has two or more. *)
Theorem run_strategy_with_enhancements_needs_two_bars
    (np_sqrt : num → num) (np_power : num → num → num)
    (data : RawData) (stock_name : Name) (c : Q) :
  (0 < c)%Q →
  let n := len (load_and_prepare_data data stock_name) in
  let run := run_strategy_with_enhancements np_sqrt np_power data stock_name (Fin c) in
  (n = 0 → run = Raise IndexError)
  ∧ (n = 1 → run = Raise ZeroDivisionError)
  ∧ (2 ≤ n → ∃ m, run = Ok m ∧ Stock_Name m = stock_name).
Proof.
  intros Hc n run.
  pose proof (enhanced_run_result np_sqrt np_power data stock_name c Hc) as H.
  fold run n in H. destruct run as [m|e].
  - destruct H. repeat split; try lia. eauto.
  - destruct H as [[H ->]|[H ->]]; repeat split; try done; lia.
Qed.

(** The enhanced batch, started with a positive capital.  It returns one
    record per instrument, in order of first appearance, when every name of
    the table selects at least two bars.  Otherwise the first failing
    instrument aborts it: with no missing name and an instrument of a single
    bar it raises [ZeroDivisionError]; with a missing name and no instrument
    of a single bar it raises [IndexError]. *)
Theorem run_all_stocks_with_enhancements_needs_two_bars
    (np_sqrt : num → num) (np_power : num → num → num) (data : RawData) (c : Q) :
  (0 < c)%Q →
  let batch := run_all_stocks_with_enhancements np_sqrt np_power data (Fin c) in
  let bars name := len (load_and_prepare_data data name) in
  ((∀ name, In name (map fst data) → 2 ≤ bars name) →
   ∃ ms, batch = Ok ms ∧ map Stock_Name ms = unique (map fst data))
  ∧ (¬ In None (map fst data) → (∃ name, bars name = 1) →
     batch = Raise ZeroDivisionError)
  ∧ (In None (map fst data) → (∀ name, In name (map fst data) → bars name ≠ 1) →
     batch = Raise IndexError).
Proof.
  intros Hc batch bars. unfold batch, bars, run_all_stocks_with_enhancements.
  split; [|split].
  - intros Hall. apply mapM_result_ok. intros name Hin.
    apply (proj1 (unique_In _ _)) in Hin.
    pose proof (enhanced_run_result np_sqrt np_power data name c Hc) as H.
    specialize (Hall name Hin).
    destruct (run_strategy_with_enhancements _ _ _ _ _) as [m|e].
    + destruct H. eauto.
    + destruct H as [[H _]|[H _]]; lia.
  - intros Hnone (name & Hone). apply mapM_result_raise.
    + intros x Hin. apply (proj1 (unique_In _ _)) in Hin.
      pose proof (enhanced_run_result np_sqrt np_power data x c Hc) as H.
      destruct (run_strategy_with_enhancements _ _ _ _ _) as [m|e]; [eauto|].
      destruct H as [[H _]|[_ ->]]; [|by right].
      apply len_load_zero in H as [->|?]; done.
    + exists name. split.
      * apply unique_In.
        destruct (in_dec (λ a b : Name, decide (a = b)) name (map fst data))
          as [?|Hn]; [done|].
        assert (len (load_and_prepare_data data name) = 0); [|lia].
        apply len_load_zero. by right.
      * pose proof (enhanced_run_result np_sqrt np_power data name c Hc) as H.
        destruct (run_strategy_with_enhancements _ _ _ _ _) as [m|e]; [lia|].
        destruct H as [[H _]|[_ ->]]; [lia|done].
  - intros Hnone Hall. apply mapM_result_raise.
    + intros x Hin. apply (proj1 (unique_In _ _)) in Hin.
      pose proof (enhanced_run_result np_sqrt np_power data x c Hc) as H.
      destruct (run_strategy_with_enhancements _ _ _ _ _) as [m|e]; [eauto|].
      destruct H as [[_ ->]|[H _]]; [by right|].
      by apply Hall in H.
    + exists None. split; [by apply unique_In|].
      pose proof (enhanced_run_result np_sqrt np_power data None c Hc) as H.
      assert (H0 : len (load_and_prepare_data data None) = 0)
        by (apply len_load_zero; by left).
      destruct (run_strategy_with_enhancements _ _ _ _ _) as [m|e]; [lia|].
      destruct H as [[_ ->]|[H _]]; [done|lia].
Qed.

(** ** The trade loop, bar by bar *)

Lemma lookup_map {A B} (f : A → B) (l : list A) i :
  map f l !! i = f <$> l !! i.
Proof. revert i. induction l as [|x l IH]; intros [|i]; cbn; auto. Qed.

Lemma cash_trace_lookup df cap cash st0 i :
  simulate_trades_init df cap = Ok st0 → cash_trace df cap = Ok cash →
  i < len df →
  cash !! i = Some (fst (simulate_trades_loop st0 i)).
Proof.
  intros Hinit. unfold cash_trace. rewrite Hinit. cbn -[len]. intros [= <-] Hi.
  rewrite lookup_map, lookup_seq_lt by done. done.
Qed.

Lemma ffill_go_lookup_notna (s : Series) : ∀ p i x,
  s !! i = Some x → notna x = true → ffill_go p s !! i = Some x.
Proof.
  induction s as [|y s IH]; intros p i x; [done|].
  destruct i as [|i]; cbn.
  - intros [= ->] Hx. unfold notna in Hx. by destruct (isnan x).
  - apply IH.
Qed.

Lemma fadd_nan_l x : fadd NaN x = NaN.
Proof. done. Qed.
Lemma fadd_nan_r x : fadd x NaN = NaN.
Proof. by destruct x. Qed.

(** What a finished run records for bar [i >= 1], in terms of the state
    [prev] the loop is in when it reaches that bar. *)
Lemma simulate_trades_at df cap d cash i :
  simulate_trades df cap = Ok d → cash_trace df cap = Ok cash →
  1 ≤ i < len df →
  ∃ st0 raw,
    simulate_trades_init df cap = Ok st0
    ∧ Invested_Capital d = ffill raw ∧ length raw = len df
    ∧ let prev := simulate_trades_loop st0 (i - 1) in
      cash !! (i - 1) = Some (fst prev)
      ∧ cash !! i = Some (step_capital (fst prev) (snd prev) i)
      ∧ Portfolio_Value d !! i = Some (step_value (fst prev) (snd prev) i)
      ∧ raw !! i = step_invested (fst prev) (snd prev) i !! i
      ∧ Invested_Capital (simulate_trades_loop st0 i).2
        = step_invested (fst prev) (snd prev) i
      ∧ close (snd prev) = close df ∧ Signal (snd prev) = Signal df
      ∧ length (Invested_Capital (snd prev)) = len df
      ∧ (∀ j, i ≤ j → j < len df → Invested_Capital (snd prev) !! j = Some NaN).
Proof.
  intros Hrun Hcash Hi.
  destruct (simulate_trades_run df cap d Hrun)
    as (_ & st0 & Hinit & _ & Hc0 & Hs0 & Hic0 & Hpv0 & HIC & HPV & _).
  exists st0, (Invested_Capital (simulate_trades_loop st0 (len df - 1)).2).
  split; [done|]. split; [done|].
  destruct (simulate_trades_loop_inv st0 (len df - 1)) as (_ & _ & Hlfin & _).
  split; [by rewrite Hlfin, Hic0, length_insert, length_replicate|].
  destruct (simulate_trades_loop_inv st0 (i - 1))
    as (Hc & Hs & Hli & Hlp & Hunt & _).
  destruct (simulate_trades_loop_stable st0 i (len df - 1)) as [HsI HsP]; [lia|].
  assert (Hstep : simulate_trades_loop st0 i
                  = simulate_trades_step (simulate_trades_loop st0 (i - 1)) i).
  { replace i with (S (i - 1)) at 1 3 by lia. apply simulate_trades_loop_S. }
  cbv zeta. rewrite HPV, HsI, HsP, Hstep.
  rewrite (cash_trace_lookup df cap cash st0 (i - 1)) by (done || lia).
  rewrite (cash_trace_lookup df cap cash st0 i) by (done || lia).
  rewrite Hstep.
  destruct (simulate_trades_loop st0 (i - 1)) as [c dp]. cbn [fst snd] in *.
  rewrite simulate_trades_step_eq.
  cbn [fst snd Portfolio_Value Invested_Capital set_Portfolio_Value
       set_Invested_Capital].
  rewrite list_lookup_insert_eq
    by (rewrite Hlp, Hpv0, length_insert, length_replicate; lia).
  repeat split; try done.
  - by rewrite Hc.
  - by rewrite Hs.
  - by rewrite Hli, Hic0, length_insert, length_replicate.
  - intros j Hj Hjl. rewrite Hunt by lia. rewrite Hic0.
    rewrite list_lookup_insert_ne by lia. by apply lookup_replicate_2.
Qed.

Lemma fdiv_nan_r x : fdiv x NaN = NaN.
Proof. by destruct x. Qed.

Lemma pct_change_first (s : Series) :
  s ≠ [] → pct_change s !! 0 = Some NaN.
Proof.
  destruct s as [|x s]; [done|]. intros _.
  unfold pct_change, ffill, shift1. cbn [ffill_go length take zip_with].
  cbn [lookup list_lookup]. by rewrite fdiv_nan_r.
Qed.

(** [simulate_trades] raises [IndexError] on a frame without rows.  On any
    other frame it returns columns of the length of the frame, whose first
    bar holds the initial capital as portfolio value, 0 as invested capital
    and an undefined return. *)
Theorem simulate_trades_seeds_first_bar (df : DataFrame) (cap : num) :
  (len df = 0 → simulate_trades df cap = Raise IndexError)
  ∧ (len df ≠ 0 →
     ∃ d, simulate_trades df cap = Ok d
          ∧ close d = close df ∧ Signal d = Signal df
          ∧ length (Portfolio_Value d) = len df
          ∧ length (Invested_Capital d) = len df
          ∧ length (Portfolio_Returns d) = len df
          ∧ Portfolio_Value d !! 0 = Some cap
          ∧ Invested_Capital d !! 0 = Some (Fin 0)
          ∧ Portfolio_Returns d !! 0 = Some NaN).
Proof.
  split.
  - intros H0. unfold simulate_trades. by rewrite simulate_trades_init_eq, H0.
  - intros Hn.
    destruct (simulate_trades df cap) as [d|e] eqn:Hrun.
    2:{ revert Hrun. unfold simulate_trades. rewrite simulate_trades_init_eq.
        destruct (Nat.eqb_spec (len df) 0); [lia|done]. }
    exists d. split; [done|].
    destruct (simulate_trades_run df cap d Hrun)
      as (_ & st0 & Hinit & _ & Hc0 & Hs0 & Hic0 & Hpv0 & HIC & HPV & HPR).
    destruct (simulate_trades_loop_inv st0 (len df - 1))
      as (Hc & Hs & Hli & Hlp & _ & _ & Hi0 & Hp0).
    assert (HlenPV : length (Portfolio_Value d) = len df).
    { by rewrite HPV, Hlp, Hpv0, length_insert, length_replicate. }
    assert (Hfirst : Invested_Capital (simulate_trades_loop st0 (len df - 1)).2 !! 0
                     = Some (Fin 0)).
    { rewrite Hi0 by done. rewrite Hic0. apply list_lookup_insert_eq.
      rewrite length_replicate. lia. }
    repeat split.
    + revert Hrun. unfold simulate_trades. rewrite Hinit. cbn. intros [= <-].
      cbn. by rewrite Hc, Hc0.
    + revert Hrun. unfold simulate_trades. rewrite Hinit. cbn. intros [= <-].
      cbn. by rewrite Hs, Hs0.
    + done.
    + rewrite HIC. unfold ffill. rewrite ffill_go_length.
      by rewrite Hli, Hic0, length_insert, length_replicate.
    + by rewrite HPR, pct_change_length.
    + rewrite HPV, Hp0 by done. rewrite Hpv0. apply list_lookup_insert_eq.
      rewrite length_replicate. lia.
    + rewrite HIC. unfold ffill. by apply ffill_go_lookup_notna.
    + rewrite HPR. apply pct_change_first. intros E. rewrite E in HlenPV.
      cbn in HlenPV. lia.
Qed.

(** On every bar that is not a buy the recorded portfolio value is the cash
    alone: a sell has just emptied the invested capital, and on a hold the
    entry of the invested capital is still unset when the value is written. *)
Theorem non_buy_bar_value_is_cash
    (df : DataFrame) (cap : num) (d : DataFrame) (cash : Series) (i : nat) :
  simulate_trades df cap = Ok d → cash_trace df cap = Ok cash →
  1 ≤ i < len df → ziloc (Signal df) i ≠ 1%Z →
  ∃ c, cash !! i = Some c ∧ Portfolio_Value d !! i = Some (fadd c (Fin 0)).
Proof.
  intros Hrun Hcash Hi Hsig.
  destruct (simulate_trades_at df cap d cash i Hrun Hcash Hi)
    as (st0 & raw & _ & _ & _ & _ & Hci & Hpv & _ & _ & _ & Hs & Hl & Hnan).
  cbv zeta in *. eexists. split; [exact Hci|]. rewrite Hpv. f_equal.
  unfold step_value. f_equal. unfold step_invested. rewrite Hs.
  apply Z.eqb_neq in Hsig. rewrite Hsig.
  destruct (_ =? -1)%Z; unfold iloc.
  - by rewrite list_lookup_insert_eq by lia.
  - by rewrite Hnan by lia.
Qed.

Lemma step_capital_nan d j : step_capital NaN d j = NaN.
Proof.
  unfold step_capital, step_cost. cbn.
  by repeat match goal with |- context [if ?b then _ else _] => destruct b end.
Qed.

Lemma step_cost_unpriced c d i :
  isfinite (iloc (close d) i) = false ∨ feq (iloc (close d) i) (Fin 0) = true →
  step_cost (Fin c) d i = NaN.
Proof.
  unfold step_cost. destruct (iloc (close d) i) as [p| | |]; cbn.
  - intros [?|Hp]; [done|]. rewrite Hp. apply Qeq_bool_iff in Hp.
    assert (Hcmp : (p ?= 0)%Q = Eq) by (by apply Qeq_alt).
    destruct (c ?= 0)%Q; cbn; by rewrite ?Hcmp.
  - intros _. done.
  - intros _. done.
  - intros _. done.
Qed.

(** A buy signal at a bar without a usable price.  When the close of the bar
    is zero, infinite or [NaN] and the cash [c] is finite, the cost
    [(capital / close) * close] is [NaN], the test [cost <= capital] fails and
    the buy is skipped: the cash is kept, the value of the bar is the cash
    alone, and the bar inherits the invested capital of the bar before. *)
Theorem buy_skipped_at_unusable_price
    (df : DataFrame) (cap : num) (d : DataFrame) (cash : Series) (i : nat) (c : Q) :
  simulate_trades df cap = Ok d → cash_trace df cap = Ok cash →
  1 ≤ i < len df → ziloc (Signal df) i = 1%Z → cash !! (i - 1) = Some (Fin c) →
  isfinite (iloc (close df) i) = false ∨ feq (iloc (close df) i) (Fin 0) = true →
  cash !! i = Some (Fin c)
  ∧ Portfolio_Value d !! i = Some (fadd (Fin c) (Fin 0))
  ∧ Invested_Capital d !! i = Invested_Capital d !! (i - 1).
Proof.
  intros Hrun Hcash Hi Hsig Hprev Hprice.
  destruct (simulate_trades_at df cap d cash i Hrun Hcash Hi)
    as (st0 & raw & _ & HIC & _ & Hcp & Hci & Hpv & Hraw & _ & Hc & Hs & Hl & Hnan).
  cbv zeta in *. rewrite Hprev in Hcp. injection Hcp as Hcp. rewrite <- Hcp in *.
  assert (Hcost : step_cost (Fin c) (simulate_trades_loop st0 (i - 1)).2 i = NaN).
  { apply step_cost_unpriced. by rewrite Hc. }
  assert (Hcapital : step_capital (Fin c) (simulate_trades_loop st0 (i - 1)).2 i
                     = Fin c).
  { unfold step_capital. by rewrite Hs, Hsig, Hcost. }
  assert (Hinv : step_invested (Fin c) (simulate_trades_loop st0 (i - 1)).2 i
                 = Invested_Capital (simulate_trades_loop st0 (i - 1)).2).
  { unfold step_invested. by rewrite Hs, Hsig, Hcost. }
  rewrite Hci, Hcapital, Hpv. split; [done|]. split.
  - unfold step_value. rewrite Hcapital, Hinv. unfold iloc.
    by rewrite Hnan by lia.
  - rewrite HIC. unfold ffill. destruct i as [|i]; [lia|].
    rewrite ffill_go_lookup_nan; [by replace (S i - 1) with i by lia|].
    rewrite Hraw, Hinv. apply Hnan; lia.
Qed.

(** A sell that comes right after a hold bar reads the unset invested capital
    of that bar: from the sell on, the cash and every recorded portfolio
    value are [NaN], whatever signals follow. *)
Theorem sell_after_hold_loses_the_cash
    (df : DataFrame) (cap : num) (d : DataFrame) (cash : Series) (i k : nat) :
  simulate_trades df cap = Ok d → cash_trace df cap = Ok cash →
  2 ≤ i → i ≤ k → k < len df →
  ziloc (Signal df) i = (-1)%Z →
  ziloc (Signal df) (i - 1) ≠ 1%Z → ziloc (Signal df) (i - 1) ≠ (-1)%Z →
  cash !! k = Some NaN ∧ Portfolio_Value d !! k = Some NaN.
Proof.
  intros Hrun Hcash Hi Hik Hk Hsell Hh1 Hh2.
  assert (Hbar : ∀ j, 1 ≤ j < len df → cash !! j = Some NaN →
                      Portfolio_Value d !! j = Some NaN).
  { intros j Hj Hnanj.
    destruct (simulate_trades_at df cap d cash j Hrun Hcash Hj)
      as (st0 & raw & _ & _ & _ & _ & Hci & Hpv & _).
    cbv zeta in *. rewrite Hpv. unfold step_value.
    rewrite Hnanj in Hci. injection Hci as <-. done. }
  assert (Hcashk : cash !! k = Some NaN).
  { induction k as [|k IH]; [lia|].
    destruct (simulate_trades_at df cap d cash (S k) Hrun Hcash)
      as (st0 & raw & Hinit & _ & _ & Hcp & Hci & _ & _ & _ & _ & Hs & _); [lia|].
    cbv zeta in *. replace (S k - 1) with k in * by lia.
    destruct (decide (i = S k)) as [->|Hne].
    - rewrite Hci. f_equal. unfold step_capital. rewrite Hs, Hsell.
      cbn [Z.eqb Pos.eqb].
      destruct (simulate_trades_run df cap d Hrun)
        as (_ & st0' & Hinit' & _ & _ & Hs0 & Hic0 & _).
      rewrite Hinit in Hinit'. injection Hinit' as <-.
      pose proof (hold_bar_raw_invested st0 k k) as Hraw.
      replace (S k - 1) with k in * by lia.
      rewrite Hs0 in Hraw. unfold iloc. rewrite Hraw by (lia || done).
      rewrite Hic0, list_lookup_insert_ne by lia.
      rewrite lookup_replicate_2 by lia. apply fadd_nan_r.
    - rewrite IH in Hcp by lia. injection Hcp as Hcp.
      by rewrite Hci, <- Hcp, step_capital_nan. }
  split; [done|]. apply Hbar; [lia|done].
Qed.

(** ** Returns of the simple variant *)

Lemma fmul_nan_r x : fmul x NaN = NaN.
Proof. by destruct x. Qed.

Lemma shift1_lookup_S (s : Series) i :
  S i < length s → shift1 s !! S i = s !! i.
Proof. intros Hi. unfold shift1. by rewrite lookup_take_lt by lia. Qed.

Lemma shift1_lookup_0 (s : Series) : s ≠ [] → shift1 s !! 0 = Some NaN.
Proof. by destruct s. Qed.

(** The strategy return of bar [i] is the stock return of bar [i] times the
    position held at the end of bar [i-1]: a position taken on a signal earns
    from the next bar on.  The first strategy return is undefined. *)
Theorem strategy_return_lags_position (df : DataFrame) (i : nat) :
  1 ≤ i < len df →
  let dp := update_position (generate_signals df) in
  let d := calculate_returns dp in
  ∃ r p,
    Stock_Returns d !! i = Some r
    ∧ Position dp !! (i - 1) = Some p
    ∧ Strategy_Returns d !! i = Some (fmul r (of_Z p))
    ∧ Strategy_Returns d !! 0 = Some NaN.
Proof.
  intros Hi dp d.
  destruct (update_position_generate_signals df) as (Hc & _ & Hl & _).
  fold dp in Hc, Hl.
  assert (Hlr : length (Stock_Returns d) = len df).
  { unfold d. cbn [calculate_returns Stock_Returns set_Stock_Returns
      set_Strategy_Returns set_Cumulative_Stock_Returns
      set_Cumulative_Strategy_Returns].
    by rewrite pct_change_length, Hc. }
  assert (Hsr : Strategy_Returns d
                = zip_with fmul (Stock_Returns d) (shift1 (map of_Z (Position dp))))
    by done.
  destruct (lookup_lt_is_Some_2 (Stock_Returns d) i) as [r Hr]; [lia|].
  destruct (lookup_lt_is_Some_2 (Position dp) (i - 1)) as [p Hp]; [lia|].
  destruct (lookup_lt_is_Some_2 (Stock_Returns d) 0) as [r0 Hr0]; [lia|].
  exists r, p. repeat split; try done.
  - rewrite Hsr, lookup_zip_with, Hr. cbn.
    destruct i as [|i]; [lia|].
    rewrite shift1_lookup_S by (rewrite length_map; lia).
    replace (S i - 1) with i in Hp by lia.
    by rewrite lookup_map, Hp.
  - rewrite Hsr, lookup_zip_with, Hr0. cbn.
    rewrite shift1_lookup_0; [cbn; by rewrite fmul_nan_r|].
    intros E. apply (f_equal length) in E. rewrite length_map in E. cbn in E. lia.
Qed.

(** ** Volatility and the position sizer *)

Lemma rolling_lookup_short w f (s : Series) i :
  i < length s → forallb notna (take (S i) s) = false → S i ≤ w →
  rolling w f s !! i = Some NaN.
Proof.
  intros Hi Hnan Hw. unfold rolling.
  rewrite rolling_go_lookup by (by rewrite length_map).
  f_equal. cbn [app]. unfold with_min_periods, lastn.
  rewrite firstn_map, length_map, length_take_le by lia.
  replace (S i - w) with 0 by lia. rewrite drop_0.
  assert (Hnan' : forallb notna (map inf_to_nan (take (S i) s)) = false).
  { rewrite notna_inf_to_nan. revert Hnan. generalize (take (S i) s).
    induction l as [|x l IH]; simpl; [done|]. destruct x; simpl; auto. }
  pose proof (dropna_some_nan _ Hnan') as Hd.
  rewrite length_map, length_take_le in Hd by lia.
  by destruct (Nat.ltb_spec (length (dropna (map inf_to_nan (take (S i) s)))) w);
    [|lia].
Qed.

Lemma volatility_warmup np_sqrt df i :
  i < len df → i < 20 →
  Volatility (calculate_volatility np_sqrt df 20) !! i = Some NaN.
Proof.
  intros Hi H20.
  cbn [calculate_volatility Volatility set_Volatility Daily_Returns
       set_Daily_Returns close].
  rewrite lookup_map, rolling_lookup_short; [done| | |lia].
  - by rewrite pct_change_length.
  - assert (H0 : pct_change (close df) !! 0 = Some NaN).
    { apply pct_change_first. intros E. unfold len in Hi. rewrite E in Hi.
      cbn in Hi. lia. }
    destruct (pct_change (close df)) as [|x t]; [done|].
    cbn in H0. injection H0 as ->. done.
Qed.

(** The rolling volatility needs 20 defined returns, and the first return is
    undefined: on the first 20 bars the volatility is [NaN], whatever
    [np.sqrt] returns. *)
Theorem volatility_undefined_on_first_20_bars
    (np_sqrt : num → num) (df : DataFrame) (i : nat) :
  i < len df → i < 20 →
  Volatility (calculate_volatility np_sqrt df 20) !! i = Some NaN
  ∧ length (Volatility (calculate_volatility np_sqrt df 20)) = len df.
Proof.
  intros Hi H20. split; [by apply volatility_warmup|].
  cbn [calculate_volatility Volatility set_Volatility Daily_Returns
       set_Daily_Returns close].
  by rewrite length_map, rolling_length, pct_change_length.
Qed.

(** For an instrument with at most 20 bars the sizer therefore writes [NaN]
    as position size on every bar. *)
Theorem position_size_undefined_up_to_20_bars
    (np_sqrt : num → num) (df : DataFrame) (initial_capital fixed_fraction : num) :
  0 < len df → len df ≤ 20 →
  ∃ d, adjust_position_size np_sqrt df initial_capital fixed_fraction = Ok d
       ∧ Position_Size d = replicate (len df) NaN.
Proof.
  intros H0 H20. rewrite adjust_position_size_eq. cbv zeta.
  assert (Hlast : last (Volatility (calculate_volatility np_sqrt df 20)) = Some NaN).
  { rewrite last_lookup.
    assert (Hl : length (Volatility (calculate_volatility np_sqrt df 20)) = len df).
    { cbn [calculate_volatility Volatility set_Volatility Daily_Returns
           set_Daily_Returns close].
      by rewrite length_map, rolling_length, pct_change_length. }
    rewrite Hl. apply volatility_warmup; lia. }
  rewrite Hlast. eexists. split; [done|].
  cbn [Position_Size set_Position_Size]. f_equal.
  cbn [fdiv]. by rewrite fmul_nan_r.
Qed.

(** ** Sharpe ratio *)



(** ** The further properties at concrete inputs *)

Lemma no_signal_before_bar_50_witness :
  49 < len example_raw
  ∧ Signal (generate_signals (calculate_moving_averages example_raw)) !! 49 = Some 0%Z
  ∧ Signal (generate_signals (calculate_moving_averages example_raw)) !! 50 = Some 1%Z.
Proof.
  assert (H : 49 < len example_raw) by (vm_compute; lia).
  split; [exact H|]. split.
  - apply (no_signal_before_bar_50 example_raw 49 H). lia.
  - vm_compute. reflexivity.
Defined.

Lemma no_repeated_signal_witness :
  Signal (generate_signals example_frame) !! 51 = Some 0%Z
  ∧ Signal (generate_signals example_frame) !! 52 = Some 0%Z
  ∧ 0%Z = 0%Z.
Proof.
  assert (H1 : Signal (generate_signals example_frame) !! 51 = Some 0%Z)
    by (vm_compute; reflexivity).
  assert (H2 : Signal (generate_signals example_frame) !! 52 = Some 0%Z)
    by (vm_compute; reflexivity).
  split; [exact H1|]. split; [exact H2|].
  exact (no_repeated_signal example_frame 51 0 H1 H2).
Defined.

Lemma signal_and_position_ranges_witness :
  50 < len example_frame
  ∧ (∃ z, Signal example_positions !! 50 = Some z ∧ (z = 1 ∨ z = -1 ∨ z = 0)%Z)
  ∧ (∃ p, Position example_positions !! 50 = Some p ∧ (p = 0 ∨ p = 1)%Z).
Proof.
  assert (H : 50 < len example_frame) by (vm_compute; lia).
  split; [exact H|]. exact (signal_and_position_ranges example_frame 50 H).
Defined.

Lemma position_is_last_trade_witness :
  52 < len example_frame
  ∧ ziloc (Position example_positions) 52 = 1%Z
  ∧ last_trade_is_buy (Signal (generate_signals example_frame)) 52.
Proof.
  assert (H : 52 < len example_frame) by (vm_compute; lia).
  split; [exact H|]. split; [vm_compute; reflexivity|].
  apply (position_is_last_trade example_frame 52 H). vm_compute. reflexivity.
Defined.

Lemma flat_series_never_trades_witness :
  close (load_and_prepare_data example_flat_data (Some "A"%string)) = replicate 60 (Fin 10)
  ∧ Signal (update_position
              (generate_signals
                 (calculate_moving_averages
                    (load_and_prepare_data example_flat_data (Some "A"%string)))))
    = replicate 60 0%Z.
Proof.
  assert (H : close (load_and_prepare_data example_flat_data (Some "A"%string))
              = replicate (len (load_and_prepare_data example_flat_data (Some "A"%string))) (Fin 10))
    by (vm_compute; reflexivity).
  split; [exact H|].
  exact (proj1 (flat_series_never_trades _ 10 H)).
Defined.

Lemma run_strategy_with_enhancements_needs_two_bars_witness :
  (0 < 100000)%Q
  ∧ ∃ m, run_strategy_with_enhancements (λ x, x) (λ x _, x)
           example_three_stocks (Some "A"%string) (Fin 100000) = Ok m
         ∧ Stock_Name m = Some "A"%string.
Proof.
  assert (Hc : (0 < 100000)%Q) by reflexivity.
  split; [exact Hc|].
  destruct (run_strategy_with_enhancements_needs_two_bars
              (λ x, x) (λ x _, x) example_three_stocks (Some "A"%string) 100000 Hc)
    as (_ & _ & H2).
  apply H2. vm_compute. lia.
Defined.

Lemma run_all_stocks_with_enhancements_needs_two_bars_witness :
  (0 < 100000)%Q
  ∧ (∃ ms, run_all_stocks_with_enhancements (λ x, x) (λ x _, x)
             example_three_stocks (Fin 100000) = Ok ms
           ∧ map Stock_Name ms = [Some "B"; Some "A"; Some "C"]%string)
  ∧ run_all_stocks_with_enhancements (λ x, x) (λ x _, x)
      example_batch_data (Fin 100000) = Raise ZeroDivisionError
  ∧ run_all_stocks_with_enhancements (λ x, x) (λ x _, x)
      example_missing_name (Fin 100000) = Raise IndexError.
Proof.
  assert (Hc : (0 < 100000)%Q) by reflexivity.
  split; [exact Hc|]. split; [|split].
  - destruct (run_all_stocks_with_enhancements_needs_two_bars
                (λ x, x) (λ x _, x) example_three_stocks 100000 Hc) as [Hok _].
    apply Hok. intros name Hin. cbn in Hin.
    destruct Hin as [<-|[<-|[<-|[<-|[<-|[<-|[<-|[<-|[<-|[]]]]]]]]]];
      vm_compute; lia.
  - destruct (run_all_stocks_with_enhancements_needs_two_bars
                (λ x, x) (λ x _, x) example_batch_data 100000 Hc)
      as (_ & Hraise & _).
    apply Hraise.
    + cbn. intros [H|[H|[H|[H|[]]]]]; discriminate H.
    + exists (Some "A"%string). reflexivity.
  - destruct (run_all_stocks_with_enhancements_needs_two_bars
                (λ x, x) (λ x _, x) example_missing_name 100000 Hc)
      as (_ & _ & Hraise).
    apply Hraise.
    + cbn. right. by left.
    + intros name Hin. cbn in Hin.
      destruct Hin as [<-|[<-|[<-|[<-|[]]]]]; vm_compute; lia.
Defined.

Lemma non_buy_bar_value_is_cash_witness :
  simulate_trades example_buy_hold (Fin 100000) = Ok example_buy_hold_result
  ∧ cash_trace example_buy_hold (Fin 100000) = Ok example_buy_hold_cash
  ∧ ∃ c, example_buy_hold_cash !! 2 = Some c
         ∧ Portfolio_Value example_buy_hold_result !! 2 = Some (fadd c (Fin 0)).
Proof.
  assert (Hrun : simulate_trades example_buy_hold (Fin 100000)
                 = Ok example_buy_hold_result) by (vm_compute; reflexivity).
  assert (Hcash : cash_trace example_buy_hold (Fin 100000)
                  = Ok example_buy_hold_cash) by (vm_compute; reflexivity).
  split; [exact Hrun|]. split; [exact Hcash|].
  apply (non_buy_bar_value_is_cash example_buy_hold (Fin 100000)
           example_buy_hold_result example_buy_hold_cash 2 Hrun Hcash);
    [vm_compute; lia|discriminate].
Defined.

Lemma buy_skipped_at_unusable_price_witness :
  simulate_trades example_buy_unpriced (Fin 100000) = Ok example_buy_unpriced_result
  ∧ cash_trace example_buy_unpriced (Fin 100000) = Ok example_buy_unpriced_cash
  ∧ example_buy_unpriced_cash !! 1 = Some (Fin 100000)
  ∧ Portfolio_Value example_buy_unpriced_result !! 1 = Some (Fin 100000)
  ∧ Invested_Capital example_buy_unpriced_result !! 1 = Some (Fin 0).
Proof.
  assert (Hrun : simulate_trades example_buy_unpriced (Fin 100000)
                 = Ok example_buy_unpriced_result) by (vm_compute; reflexivity).
  assert (Hcash : cash_trace example_buy_unpriced (Fin 100000)
                  = Ok example_buy_unpriced_cash) by (vm_compute; reflexivity).
  split; [exact Hrun|]. split; [exact Hcash|].
  destruct (buy_skipped_at_unusable_price example_buy_unpriced (Fin 100000)
              example_buy_unpriced_result example_buy_unpriced_cash 1 100000
              Hrun Hcash)
    as (Hc & Hv & Hi);
    [vm_compute; lia|reflexivity|reflexivity|right; reflexivity|].
  split; [exact Hc|]. split; [exact Hv|]. rewrite Hi. reflexivity.
Defined.

Lemma sell_after_hold_loses_the_cash_witness :
  simulate_trades example_buy_hold_sell (Fin 100000) = Ok example_buy_hold_sell_result
  ∧ cash_trace example_buy_hold_sell (Fin 100000) = Ok example_buy_hold_sell_cash
  ∧ example_buy_hold_sell_cash !! 3 = Some NaN
  ∧ Portfolio_Value example_buy_hold_sell_result !! 3 = Some NaN.
Proof.
  assert (Hrun : simulate_trades example_buy_hold_sell (Fin 100000)
                 = Ok example_buy_hold_sell_result) by (vm_compute; reflexivity).
  assert (Hcash : cash_trace example_buy_hold_sell (Fin 100000)
                  = Ok example_buy_hold_sell_cash) by (vm_compute; reflexivity).
  split; [exact Hrun|]. split; [exact Hcash|].
  apply (sell_after_hold_loses_the_cash example_buy_hold_sell (Fin 100000)
           example_buy_hold_sell_result example_buy_hold_sell_cash 3 3 Hrun Hcash);
    [lia|lia|vm_compute; lia|reflexivity|discriminate|discriminate].
Defined.

Lemma strategy_return_lags_position_witness :
  1 ≤ 51 < len example_frame
  ∧ ∃ r p,
      Stock_Returns (calculate_returns example_positions) !! 51 = Some r
      ∧ Position example_positions !! (51 - 1) = Some p
      ∧ Strategy_Returns (calculate_returns example_positions) !! 51
        = Some (fmul r (of_Z p))
      ∧ Strategy_Returns (calculate_returns example_positions) !! 0 = Some NaN.
Proof.
  assert (H : 1 ≤ 51 < len example_frame) by (vm_compute; lia).
  split; [exact H|]. exact (strategy_return_lags_position example_frame 51 H).
Defined.

Lemma volatility_undefined_on_first_20_bars_witness :
  19 < len example_frame
  ∧ Volatility (calculate_volatility (λ x, x) example_frame 20) !! 19 = Some NaN
  ∧ length (Volatility (calculate_volatility (λ x, x) example_frame 20))
    = len example_frame.
Proof.
  assert (H : 19 < len example_frame) by (vm_compute; lia).
  split; [exact H|].
  apply (volatility_undefined_on_first_20_bars (λ x, x) example_frame 19 H). lia.
Defined.

Lemma position_size_undefined_up_to_20_bars_witness :
  0 < len example_short ∧ len example_short ≤ 20
  ∧ ∃ d, adjust_position_size (λ x, x) example_short (Fin 100000) (Fin (1 # 10)) = Ok d
         ∧ Position_Size d = replicate (len example_short) NaN.
Proof.
  assert (H0 : 0 < len example_short) by (vm_compute; lia).
  assert (H20 : len example_short ≤ 20) by (vm_compute; lia).
  split; [exact H0|]. split; [exact H20|].
  exact (position_size_undefined_up_to_20_bars
           (λ x, x) example_short (Fin 100000) (Fin (1 # 10)) H0 H20).
Defined.

